(** * lv_table: the table widget of the graphics library (lv_objx/lv_table.c)

    A shallow embedding of the cell store, the layout engine and the
    renderer of [lv_table.c], and the properties of its specification.

    Conventions of the embedding.
    - C integers are [Z]. The 16-bit counters of the source ([uint16_t cell],
      [col], [col_merge], [row_start]) wrap with [wrap16] where the source
      assigns them. Coordinates ([lv_coord_t], declared in lv_area.h) are
      plain integers.
    - A [char *] is [option (list Z)]: [None] is NULL, [Some b] points to a
      block whose readable bytes are [b]. Reading past the block is undefined.
    - A function whose C execution is undefined (NULL or wild dereference,
      read out of bounds) or does not terminate returns [None].
    - [lv_mem_alloc] and [lv_mem_realloc] are taken to succeed. They do not
      initialise the memory they hand out; every call site takes the
      indeterminate content as an argument named [junk]. *)

From Stdlib Require Import ZArith Lia Bool.
From stdpp Require Import base option list.

Local Open Scope Z_scope.

(** ** Machine integers *)

Definition wrap16 (z : Z) : Z := z mod 65536.

(** ** Collaborators declared outside lv_table.c *)

Definition lv_coord_t := Z.
Definition lv_font_t := Z.
Definition lv_txt_flag_t := Z.
Definition lv_label_align_t := Z.

(** Modelled from the spec: the enumeration lv_label_align_t of lv_label.h,
    "alignment (left/center/right)", in that order. *)
Definition LV_LABEL_ALIGN_LEFT : lv_label_align_t := 0.

(** Modelled from the spec: second value of lv_label_align_t. *)
Definition LV_LABEL_ALIGN_CENTER : lv_label_align_t := 1.

(** Modelled from the spec: third value of lv_label_align_t. *)
Definition LV_LABEL_ALIGN_RIGHT : lv_label_align_t := 2.

(** Modelled from the spec: the text flags of lv_txt.h that the renderer
    hands to the text primitive ("left->none, right->right,
    center->center"); three distinct values. *)
Definition LV_TXT_FLAG_NONE : lv_txt_flag_t := 0.

(** Modelled from the spec: the text flag for centered text. *)
Definition LV_TXT_FLAG_CENTER : lv_txt_flag_t := 4.

(** Modelled from the spec: the text flag for right-aligned text. *)
Definition LV_TXT_FLAG_RIGHT : lv_txt_flag_t := 8.

(** The fields of lv_style_t that lv_table.c reads. *)
Record lv_style_t := {
  body_padding_hor : lv_coord_t;
  body_padding_ver : lv_coord_t;
  text_font : lv_font_t;
  text_letter_space : lv_coord_t;
  text_line_space : lv_coord_t
}.

(** Configuration constants, the two built-in styles and the primitives of
    the font and text subsystems. *)
Record lv_env := {
  LV_TABLE_COL_MAX : Z;
  LV_DPI : lv_coord_t;
  lv_style_plain : lv_style_t;
  lv_style_plain_color : lv_style_t;
  lv_font_get_height : lv_font_t -> lv_coord_t;
  (* text, font, letter_space, line_space, max_width, flags -> (x, y) *)
  lv_txt_get_size :
    list Z -> lv_font_t -> lv_coord_t -> lv_coord_t -> lv_coord_t ->
    lv_txt_flag_t -> lv_coord_t * lv_coord_t
}.

Definition LV_MATH_MAX (a b : Z) : Z := if a >? b then a else b.

(** ** The packed format byte *)

(** Modelled from the spec: the union lv_table_cell_format_t of lv_table.h,
    "the format byte packs two fields: horizontal alignment and a
    right-merge flag"; [align] takes the two low bits of the byte. *)
Definition format_align (f : Z) : lv_label_align_t := Z.land f 3.

(** Modelled from the spec: [right_merge] is the bit that follows [align]. *)
Definition format_right_merge (f : Z) : bool := Z.testbit f 2.

(** Modelled from the spec: [format.align = a] keeps the two low bits of
    [a] and leaves the other bits of the byte. *)
Definition format_set_align (f : Z) (a : lv_label_align_t) : Z :=
  Z.lor (Z.land f 252) (Z.land a 3).

(** Modelled from the spec: [format.right_merge = en] leaves the other bits
    of the byte. *)
Definition format_set_right_merge (f : Z) (en : bool) : Z :=
  Z.lor (Z.land f 251) (if en then 4 else 0).

(** ** Data model *)

Definition cell_ptr := option (list Z).

Record lv_table_ext_t := {
  col_cnt : Z;
  row_cnt : Z;
  cell_data : option (list cell_ptr);
  cell_style : lv_style_t;
  col_w : list lv_coord_t
}.

(** The base object, as far as the table reads and writes it: the origin of
    its coordinates, the size last given to [lv_obj_set_size], its own
    (background) style and the extended attributes. *)
Record lv_obj_t := {
  coords_x1 : lv_coord_t;
  coords_y1 : lv_coord_t;
  obj_size : lv_coord_t * lv_coord_t;
  obj_style : lv_style_t;
  ext_attr : lv_table_ext_t
}.

Definition with_cell_data (e : lv_table_ext_t) (cd : option (list cell_ptr)) :=
  {| col_cnt := col_cnt e; row_cnt := row_cnt e; cell_data := cd;
     cell_style := cell_style e; col_w := col_w e |}.
Definition with_row_cnt (e : lv_table_ext_t) (n : Z) :=
  {| col_cnt := col_cnt e; row_cnt := n; cell_data := cell_data e;
     cell_style := cell_style e; col_w := col_w e |}.
Definition with_col_cnt (e : lv_table_ext_t) (n : Z) :=
  {| col_cnt := n; row_cnt := row_cnt e; cell_data := cell_data e;
     cell_style := cell_style e; col_w := col_w e |}.
Definition with_cell_style (e : lv_table_ext_t) (s : lv_style_t) :=
  {| col_cnt := col_cnt e; row_cnt := row_cnt e; cell_data := cell_data e;
     cell_style := s; col_w := col_w e |}.
Definition with_col_w (e : lv_table_ext_t) (w : list lv_coord_t) :=
  {| col_cnt := col_cnt e; row_cnt := row_cnt e; cell_data := cell_data e;
     cell_style := cell_style e; col_w := w |}.

Definition with_ext (t : lv_obj_t) (e : lv_table_ext_t) :=
  {| coords_x1 := coords_x1 t; coords_y1 := coords_y1 t;
     obj_size := obj_size t; obj_style := obj_style t; ext_attr := e |}.
Definition lv_obj_set_size (t : lv_obj_t) (w h : lv_coord_t) :=
  {| coords_x1 := coords_x1 t; coords_y1 := coords_y1 t;
     obj_size := (w, h); obj_style := obj_style t; ext_attr := ext_attr t |}.
Definition lv_obj_set_style (t : lv_obj_t) (s : lv_style_t) :=
  {| coords_x1 := coords_x1 t; coords_y1 := coords_y1 t;
     obj_size := obj_size t; obj_style := s; ext_attr := ext_attr t |}.

(** ** Memory accesses *)

(** [a[i]] for an array [a]; an index outside the array has no defined
    value. *)
Definition idx {A} (a : list A) (i : Z) : option A :=
  if i <? 0 then None else a !! Z.to_nat i.

(** [ext->cell_data[i]] *)
Definition read_slot (e : lv_table_ext_t) (i : Z) : option cell_ptr :=
  cells ← cell_data e; idx cells i.

(** [ext->cell_data[i] = p] *)
Definition write_slot (e : lv_table_ext_t) (i : Z) (p : cell_ptr)
  : option lv_table_ext_t :=
  cells ← cell_data e;
  _ ← idx cells i;
  Some (with_cell_data e (Some (<[Z.to_nat i := p]> cells))).

(** The NUL-terminated string that starts a block. *)
Fixpoint c_str (b : list Z) : option (list Z) :=
  match b with
  | [] => None
  | c :: r => if c =? 0 then Some [] else cons c <$> c_str r
  end.

(** [lv_mem_alloc(2)]: two bytes of indeterminate content. *)
Definition lv_mem_alloc2 (junk : Z) : list Z := [junk; junk].

(** [lv_mem_realloc(cell_data, n * sizeof slot)]: the first [n] old slots
    are kept, the slots beyond the old block hold whatever the allocator's
    memory held. *)
Definition lv_mem_realloc_cells (junk : nat -> cell_ptr)
    (old : option (list cell_ptr)) (n : Z) : list cell_ptr :=
  let o := default [] old in
  take (Z.to_nat n) o ++
  (junk <$> seq (length o) (Z.to_nat n - length o)%nat).

(** ** Layout engine *)

(** One call of the text primitive made by [get_row_height]: the column and
    the slot it is made for, the text and the width offered to it. *)
Record measure_call := {
  m_col : Z;
  m_cell : Z;
  m_txt : list Z;
  m_width : lv_coord_t
}.

(** The loop budget of the column loops: a loop over the columns that
    terminates does so within [col_cnt] iterations. *)
Definition col_fuel (e : lv_table_ext_t) : nat := Z.to_nat (col_cnt e).

(** The merge loop of [get_row_height]:
    [for(col_merge = 0; col_merge + col < ext->col_cnt - 1; col_merge++)];
    it yields the final [col_merge] and [txt_w]. *)
Fixpoint row_height_merge (fuel : nat) (e : lv_table_ext_t)
    (cell col col_merge : Z) (txt_w : lv_coord_t) : option (Z * lv_coord_t) :=
  if col_merge + col <? col_cnt e - 1 then
    match fuel with
    | O => None
    | S n =>
        p ← read_slot e (cell + col_merge);
        match p with
        | Some b =>
            format ← idx b 0;
            if format_right_merge format then
              w ← idx (col_w e) (col + col_merge + 1);
              row_height_merge n e cell col (wrap16 (col_merge + 1)) (txt_w + w)
            else Some (col_merge, txt_w)
        | None => Some (col_merge, txt_w)
        end
    end
  else Some (col_merge, txt_w).

(** The cell loop of [get_row_height]:
    [for(cell = row_start, col = 0; cell < row_start + ext->col_cnt; cell++, col++)];
    it yields the final [h_max] and the calls of the text primitive in the
    order they are made. *)
Fixpoint row_height_cells (fuel : nat) (env : lv_env) (e : lv_table_ext_t)
    (row_start cell col : Z) (h_max : lv_coord_t)
    : option (lv_coord_t * list measure_call) :=
  if cell <? row_start + col_cnt e then
    match fuel with
    | O => None
    | S n =>
        p ← read_slot e cell;
        match p with
        | Some b =>
            txt_w ← idx (col_w e) col;
            '(col_merge, txt_w) ← row_height_merge (col_fuel e) e cell col 0 txt_w;
            let txt_w := txt_w - 2 * body_padding_hor (cell_style e) in
            txt ← c_str (drop 1 b);
            let txt_size :=
              lv_txt_get_size env txt (text_font (cell_style e))
                (text_letter_space (cell_style e))
                (text_line_space (cell_style e)) txt_w LV_TXT_FLAG_NONE in
            let h_max := LV_MATH_MAX (snd txt_size) h_max in
            let call := {| m_col := col; m_cell := cell; m_txt := txt;
                           m_width := txt_w |} in
            let cell := wrap16 (cell + col_merge) in
            let col := wrap16 (col + col_merge) in
            '(h, log) ← row_height_cells n env e row_start
                          (wrap16 (cell + 1)) (wrap16 (col + 1)) h_max;
            Some (h, call :: log)
        | None =>
            row_height_cells n env e row_start
              (wrap16 (cell + 1)) (wrap16 (col + 1)) h_max
        end
    end
  else Some (h_max, []).

(** [get_row_height], with the calls it makes to the text primitive. *)
Definition get_row_height_log (env : lv_env) (t : lv_obj_t) (row_id : Z)
    : option (lv_coord_t * list measure_call) :=
  let e := ext_attr t in
  let row_start := wrap16 (row_id * col_cnt e) in
  let h_max := lv_font_get_height env (text_font (cell_style e)) in
  '(h_max, log) ← row_height_cells (col_fuel e) env e row_start row_start 0 h_max;
  Some (h_max + 2 * body_padding_ver (cell_style e), log).

Definition get_row_height (env : lv_env) (t : lv_obj_t) (row_id : Z)
    : option lv_coord_t :=
  fst <$> get_row_height_log env t row_id.

(** [for(i = 0; i < n; i++) acc += f(i)] over the indices [ixs]. *)
Fixpoint sum_loop (f : Z -> option Z) (ixs : list Z) (acc : Z) : option Z :=
  match ixs with
  | [] => Some acc
  | i :: rest => x ← f i; sum_loop f rest (acc + x)
  end.

Definition refr_size (env : lv_env) (t : lv_obj_t) : option lv_obj_t :=
  let e := ext_attr t in
  w ← sum_loop (fun i => idx (col_w e) i) (seqZ 0 (col_cnt e)) 0;
  h ← sum_loop (fun i => get_row_height env t i) (seqZ 0 (row_cnt e)) 0;
  let bg_style := obj_style t in
  let w := w + body_padding_hor bg_style * 2 in
  let h := h + body_padding_ver bg_style * 2 in
  Some (lv_obj_set_size t w h).

(** ** Setters *)

Definition lv_table_set_cell_value (env : lv_env) (junk : Z) (t : lv_obj_t)
    (row col : Z) (txt : list Z) : option lv_obj_t :=
  let e := ext_attr t in
  if (row >=? row_cnt e) || (col >=? col_cnt e) then Some t
  else
    let cell := row * col_cnt e + col in
    p ← read_slot e cell;
    format ← match p with
             | Some b => idx b 0
             | None =>
                 Some (format_set_right_merge
                         (format_set_align junk LV_LABEL_ALIGN_LEFT) false)
             end;
    (* realloc to strlen(txt) + 2 bytes, strcpy behind the format byte *)
    let buf := format :: txt ++ [0] in
    e ← write_slot e cell (Some buf);
    refr_size env (with_ext t e).

Definition resize_cell_data (junk : nat -> cell_ptr) (e : lv_table_ext_t)
    : lv_table_ext_t :=
  if (row_cnt e >? 0) && (col_cnt e >? 0) then
    with_cell_data e
      (Some (lv_mem_realloc_cells junk (cell_data e) (row_cnt e * col_cnt e)))
  else with_cell_data e None.

Definition lv_table_set_row_cnt (env : lv_env) (junk : nat -> cell_ptr)
    (t : lv_obj_t) (row_cnt : Z) : option lv_obj_t :=
  let e := with_row_cnt (ext_attr t) row_cnt in
  refr_size env (with_ext t (resize_cell_data junk e)).

Definition lv_table_set_col_cnt (env : lv_env) (junk : nat -> cell_ptr)
    (t : lv_obj_t) (col_cnt : Z) : option lv_obj_t :=
  if col_cnt >=? LV_TABLE_COL_MAX env then Some t
  else
    let e := with_col_cnt (ext_attr t) col_cnt in
    refr_size env (with_ext t (resize_cell_data junk e)).

Definition lv_table_set_col_width (env : lv_env) (t : lv_obj_t)
    (col_id : Z) (w : lv_coord_t) : option lv_obj_t :=
  if col_id >=? LV_TABLE_COL_MAX env then Some t
  else
    let e := ext_attr t in
    _ ← idx (col_w e) col_id;
    refr_size env (with_ext t (with_col_w e (<[Z.to_nat col_id := w]> (col_w e)))).

(** The slot [cell] once it is sure to point to a block: an empty slot gets
    [lv_mem_alloc(2)] with its second byte set to NUL. *)
Definition ensure_slot (junk : Z) (p : cell_ptr) : list Z :=
  match p with
  | Some b => b
  | None => <[1%nat := 0]> (lv_mem_alloc2 junk)
  end.

Definition lv_table_set_cell_align (junk : Z) (t : lv_obj_t)
    (row col : Z) (align : lv_label_align_t) : option lv_obj_t :=
  let e := ext_attr t in
  if (row >=? row_cnt e) || (col >=? col_cnt e) then Some t
  else
    let cell := row * col_cnt e + col in
    p ← read_slot e cell;
    let b := ensure_slot junk p in
    format ← idx b 0;
    let format := format_set_align format align in
    e ← write_slot e cell (Some (<[0%nat := format]> b));
    Some (with_ext t e).

Definition lv_table_set_cell_merge_right (env : lv_env) (junk : Z)
    (t : lv_obj_t) (row col : Z) (en : bool) : option lv_obj_t :=
  let e := ext_attr t in
  if (row >=? row_cnt e) || (col >=? col_cnt e) then Some t
  else
    let cell := row * col_cnt e + col in
    p ← read_slot e cell;
    let b := ensure_slot junk p in
    format ← idx b 0;
    let format := format_set_right_merge format (if en then true else false) in
    e ← write_slot e cell (Some (<[0%nat := format]> b));
    refr_size env (with_ext t e).

Inductive lv_table_style_t := LV_TABLE_STYLE_BG | LV_TABLE_STYLE_CELL.

Definition lv_table_set_style (env : lv_env) (t : lv_obj_t)
    (type : lv_table_style_t) (style : lv_style_t) : option lv_obj_t :=
  match type with
  | LV_TABLE_STYLE_BG => refr_size env (lv_obj_set_style t style)
  | LV_TABLE_STYLE_CELL => Some (with_ext t (with_cell_style (ext_attr t) style))
  end.

(** [lv_table_create]. [new_table] is the object [lv_obj_create(par, copy)]
    returned, whose extended attributes are allocated and initialised here;
    both allocations are taken to succeed. [lv_obj_refresh_style] reaches
    [lv_table_signal] with a signal the table does not handle. *)
Definition lv_table_create (env : lv_env) (new_table : lv_obj_t)
    (copy : option lv_obj_t) : option lv_obj_t :=
  let e := {| cell_data := None;
              cell_style := lv_style_plain env;
              col_cnt := 0;
              row_cnt := 0;
              col_w := replicate (Z.to_nat (LV_TABLE_COL_MAX env)) (LV_DPI env) |} in
  match copy with
  | None =>
      lv_table_set_style env (with_ext new_table e) LV_TABLE_STYLE_BG
        (lv_style_plain_color env)
  | Some c =>
      let copy_ext := ext_attr c in
      let e := with_cell_style e (cell_style copy_ext) in
      let e := with_col_cnt e (col_cnt copy_ext) in
      let e := with_row_cnt e (row_cnt copy_ext) in
      Some (with_ext new_table e)
  end.

(** ** Getters *)

Definition lv_table_get_cell_value (t : lv_obj_t) (row col : Z)
    : option (list Z) :=
  let e := ext_attr t in
  if (row >=? row_cnt e) || (col >=? col_cnt e) then Some []
  else
    let cell := row * col_cnt e + col in
    p ← read_slot e cell;
    match p with
    | None => Some []
    | Some b => c_str (drop 1 b)
    end.

Definition lv_table_get_row_cnt (t : lv_obj_t) : Z := row_cnt (ext_attr t).
Definition lv_table_get_col_cnt (t : lv_obj_t) : Z := col_cnt (ext_attr t).

Definition lv_table_get_col_width (env : lv_env) (t : lv_obj_t) (col_id : Z)
    : option lv_coord_t :=
  if col_id >=? LV_TABLE_COL_MAX env then Some 0
  else idx (col_w (ext_attr t)) col_id.

Definition lv_table_get_cell_align (t : lv_obj_t) (row col : Z)
    : option lv_label_align_t :=
  let e := ext_attr t in
  if (row >=? row_cnt e) || (col >=? col_cnt e) then Some LV_LABEL_ALIGN_LEFT
  else
    let cell := row * col_cnt e + col in
    p ← read_slot e cell;
    match p with
    | None => Some LV_LABEL_ALIGN_LEFT
    | Some b => format ← idx b 0; Some (format_align format)
    end.

Definition lv_table_get_cell_merge_right (t : lv_obj_t) (row col : Z)
    : option bool :=
  let e := ext_attr t in
  if (row >=? row_cnt e) || (col >=? col_cnt e) then Some false
  else
    let cell := row * col_cnt e + col in
    p ← read_slot e cell;
    match p with
    | None => Some false
    | Some b =>
        format ← idx b 0;
        Some (if format_right_merge format then true else false)
    end.

Definition lv_table_get_style (t : lv_obj_t) (type : lv_table_style_t)
    : lv_style_t :=
  match type with
  | LV_TABLE_STYLE_BG => obj_style t
  | LV_TABLE_STYLE_CELL => cell_style (ext_attr t)
  end.

(** ** Renderer *)

Record lv_area_t := { x1 : lv_coord_t; y1 : lv_coord_t;
                      x2 : lv_coord_t; y2 : lv_coord_t }.

(** The calls the main-draw pass issues, in order. A rectangle and a label
    carry the row and the column the loops stood at when they were drawn. *)
Inductive draw_call :=
| AncestorDesign
| DrawRect (row col : Z) (area : lv_area_t)
| DrawLabel (row col : Z) (area : lv_area_t) (txt : list Z)
            (flags : lv_txt_flag_t).

Inductive lv_design_mode_t :=
| LV_DESIGN_COVER_CHK | LV_DESIGN_DRAW_MAIN | LV_DESIGN_DRAW_POST.

(** The merge loop of [lv_table_design]; it yields the final [col_merge] and
    [cell_area.x2]. *)
Fixpoint design_merge (fuel : nat) (e : lv_table_ext_t)
    (cell col col_merge : Z) (area_x2 : lv_coord_t) : option (Z * lv_coord_t) :=
  if col_merge + col <? col_cnt e - 1 then
    match fuel with
    | O => None
    | S n =>
        match read_slot e (cell + col_merge) with
        | None => None
        | Some None => Some (col_merge, area_x2)
        | Some (Some b) =>
            match idx b 0 with
            | None => None
            | Some format =>
                if format_right_merge format then
                  match idx (col_w e) (col + col_merge + 1) with
                  | None => None
                  | Some w =>
                      design_merge n e cell col (wrap16 (col_merge + 1))
                        (area_x2 + w)
                  end
                else Some (col_merge, area_x2)
            end
        end
    end
  else Some (col_merge, area_x2).

(** [switch(format.align)]: an alignment that is none of the three leaves
    [txt_flags] as it was. *)
Definition align_txt_flags (format : Z) (txt_flags : lv_txt_flag_t)
    : lv_txt_flag_t :=
  if format_align format =? LV_LABEL_ALIGN_LEFT then LV_TXT_FLAG_NONE
  else if format_align format =? LV_LABEL_ALIGN_RIGHT then LV_TXT_FLAG_RIGHT
  else if format_align format =? LV_LABEL_ALIGN_CENTER then LV_TXT_FLAG_CENTER
  else txt_flags.

(** The column loop of [lv_table_design] for one row; it yields the final
    [cell] and [txt_flags] and the calls drawn. The call of
    [lv_txt_get_size] in that loop is left out: its result is not used. *)
Fixpoint design_cols (fuel : nat) (e : lv_table_ext_t) (row col cell : Z)
    (area_x2 area_y1 area_y2 : lv_coord_t) (txt_flags : lv_txt_flag_t)
    : option (Z * lv_txt_flag_t * list draw_call) :=
  if col <? col_cnt e then
    match fuel with
    | O => None
    | S n =>
        let area_x1 := area_x2 in
        w ← idx (col_w e) col;
        let area_x2 := area_x1 + w in
        '(col_merge, area_x2) ← design_merge (col_fuel e) e cell col 0 area_x2;
        let cell_area := {| x1 := area_x1; y1 := area_y1;
                            x2 := area_x2; y2 := area_y2 |} in
        let rect := DrawRect row col cell_area in
        p ← read_slot e cell;
        '(txt_flags, label) ←
          match p with
          | Some b =>
              let txt_area :=
                {| x1 := area_x1 + body_padding_hor (cell_style e);
                   x2 := area_x2 - body_padding_hor (cell_style e);
                   y1 := area_y1 + body_padding_ver (cell_style e);
                   y2 := area_y2 - body_padding_ver (cell_style e) |} in
              format ← idx b 0;
              let txt_flags := align_txt_flags format txt_flags in
              txt ← c_str (drop 1 b);
              Some (txt_flags, [DrawLabel row col txt_area txt txt_flags])
          | None => Some (txt_flags, [])
          end;
        let cell := wrap16 (cell + col_merge + 1) in
        let col := wrap16 (col + col_merge) in
        '(cell, txt_flags, calls) ←
          design_cols n e row (wrap16 (col + 1)) cell area_x2 area_y1 area_y2
            txt_flags;
        Some (cell, txt_flags, rect :: label ++ calls)
    end
  else Some (cell, txt_flags, []).

(** The row loop of [lv_table_design] over the rows [rows]. *)
Fixpoint design_rows (env : lv_env) (t : lv_obj_t) (rows : list Z)
    (cell : Z) (area_y2 : lv_coord_t) (txt_flags : lv_txt_flag_t)
    : option (list draw_call) :=
  match rows with
  | [] => Some []
  | row :: rest =>
      let e := ext_attr t in
      h_row ← get_row_height env t row;
      let area_y1 := area_y2 in
      let area_y2 := area_y1 + h_row in
      let area_x2 := coords_x1 t + body_padding_hor (obj_style t) in
      '(cell, txt_flags, calls) ←
        design_cols (col_fuel e) e row 0 cell area_x2 area_y1 area_y2 txt_flags;
      more ← design_rows env t rest cell area_y2 txt_flags;
      Some (calls ++ more)
  end.

(** [lv_table_design]: the value returned and the calls drawn. [txt_flags]
    is the indeterminate initial value of the local of that name. *)
Definition lv_table_design (env : lv_env) (t : lv_obj_t)
    (mode : lv_design_mode_t) (txt_flags : lv_txt_flag_t)
    : option (bool * list draw_call) :=
  match mode with
  | LV_DESIGN_COVER_CHK => Some (false, [])
  | LV_DESIGN_DRAW_MAIN =>
      let e := ext_attr t in
      let area_y2 := coords_y1 t + body_padding_ver (obj_style t) in
      calls ← design_rows env t (seqZ 0 (row_cnt e)) 0 area_y2 txt_flags;
      Some (true, AncestorDesign :: calls)
  | LV_DESIGN_DRAW_POST => Some (true, [])
  end.

(** ** A concrete configuration, for evaluating the model *)

Definition style0 : lv_style_t :=
  {| body_padding_hor := 2; body_padding_ver := 1; text_font := 0;
     text_letter_space := 0; text_line_space := 0 |}.

(** A text primitive for the examples: every letter is 10 wide and 10 high,
    and a line breaks when the width is used up. *)
Definition txt_size0 (txt : list Z) (font : lv_font_t)
    (letter_space line_space max_w : lv_coord_t) (flags : lv_txt_flag_t)
    : lv_coord_t * lv_coord_t :=
  let per_line := Z.max 1 (max_w / 10) in
  let n := Z.of_nat (length txt) in
  let lines := Z.max 1 ((n + per_line - 1) / per_line) in
  (Z.min n per_line * 10, lines * 10).

Definition env0 : lv_env :=
  {| LV_TABLE_COL_MAX := 12; LV_DPI := 100;
     lv_style_plain := style0; lv_style_plain_color := style0;
     lv_font_get_height := fun _ => 10;
     lv_txt_get_size := txt_size0 |}.

Definition obj0 : lv_obj_t :=
  {| coords_x1 := 0; coords_y1 := 0; obj_size := (0, 0); obj_style := style0;
     ext_attr := {| col_cnt := 0; row_cnt := 0; cell_data := None;
                    cell_style := style0; col_w := [] |} |}.

(** An allocator that hands out zeroed memory. *)
Definition zeroed : nat -> cell_ptr := fun _ => None.

(** ** Predicates and observations used by the properties *)

(** A slot is usable when it is NULL or points to a block that holds a
    format byte followed by a NUL-terminated string. *)
Definition slot_ok (p : cell_ptr) : bool :=
  match p with
  | None => true
  | Some b =>
      match idx b 0, c_str (drop 1 b) with
      | Some _, Some _ => true
      | _, _ => false
      end
  end.

(** The store-size invariant of the data model: [R*C > 0] slots when
    [R*C > 0], no array when [R*C = 0]. *)
Definition store_inv (e : lv_table_ext_t) : Prop :=
  (row_cnt e * col_cnt e > 0 ->
   exists cells, cell_data e = Some cells /\
                 Z.of_nat (length cells) = row_cnt e * col_cnt e) /\
  (row_cnt e * col_cnt e = 0 -> cell_data e = None).

Definition store_ok (e : lv_table_ext_t) : bool :=
  match cell_data e with
  | Some cells =>
      (0 <? row_cnt e * col_cnt e) &&
      (Z.of_nat (length cells) =? row_cnt e * col_cnt e) &&
      forallb slot_ok cells
  | None => row_cnt e * col_cnt e =? 0
  end.

(** A well-formed table: the counts are within their types and the column
    cap, the width array has [LV_TABLE_COL_MAX] entries, the store has the
    size of the grid and only usable slots, and the grid has fewer than
    [2^16] cells, the range of the 16-bit cell counters of the layout engine
    and of the renderer. On a larger grid [refr_size] does not return, so
    that no call that resizes a table hands one back. *)
Definition table_ok (env : lv_env) (t : lv_obj_t) : bool :=
  let e := ext_attr t in
  (0 <=? row_cnt e) && (0 <=? col_cnt e) &&
  (col_cnt e <? LV_TABLE_COL_MAX env) &&
  (Z.of_nat (length (col_w e)) =? LV_TABLE_COL_MAX env) &&
  (row_cnt e * col_cnt e <? 65536) &&
  store_ok e.

(** The right-merge flag stored in slot [i]; an empty slot has none. *)
Definition right_merge_at (e : lv_table_ext_t) (i : Z) : bool :=
  match read_slot e i with
  | Some (Some b) =>
      match idx b 0 with
      | Some format => format_right_merge format
      | None => false
      end
  | _ => false
  end.

(** The sum of the [n] column widths from column [a] on. *)
Definition col_w_sum (e : lv_table_ext_t) (a n : Z) : Z :=
  foldr Z.add 0 ((fun i => default 0 (idx (col_w e) i)) <$> seqZ a n).

Definition sum_Z (xs : list Z) : Z := foldr Z.add 0 xs.

(** A 2x3 table: "Hi" in cell (0,0), which merges with (0,1) and (0,2), and
    a right-aligned "ABC" in cell (1,1). *)
Definition table1 : lv_obj_t :=
  {| coords_x1 := 0; coords_y1 := 0; obj_size := (304, 26);
     obj_style := style0;
     ext_attr :=
       {| col_cnt := 3; row_cnt := 2;
          cell_data := Some [Some [4; 72; 105; 0]; Some [4; 0]; None;
                             None; Some [2; 65; 66; 67; 0]; None];
          cell_style := style0;
          col_w := replicate 12 100 |} |}.

(** Two slots that differ at most in the alignment bits of their format
    byte: both empty, or both blocks with the same text and the same
    right-merge flag. *)
Definition slot_same_but_align (p q : cell_ptr) : Prop :=
  match p, q with
  | None, None => True
  | Some b1, Some b2 =>
      drop 1 b1 = drop 1 b2 /\
      format_right_merge <$> idx b1 0 = format_right_merge <$> idx b2 0
  | _, _ => False
  end.

Definition ext_same_but_align (e1 e2 : lv_table_ext_t) : Prop :=
  row_cnt e1 = row_cnt e2 /\ col_cnt e1 = col_cnt e2 /\
  cell_style e1 = cell_style e2 /\ col_w e1 = col_w e2 /\
  match cell_data e1, cell_data e2 with
  | None, None => True
  | Some c1, Some c2 => Forall2 slot_same_but_align c1 c2
  | _, _ => False
  end.

(** Two tables that are identical except for the alignment of their
    cells. *)
Definition same_but_align (t1 t2 : lv_obj_t) : Prop :=
  obj_style t1 = obj_style t2 /\ ext_same_but_align (ext_attr t1) (ext_attr t2).

(** [table1] with other alignments: centered "Hi", left-aligned "ABC". *)
Definition table1_realigned : lv_obj_t :=
  {| coords_x1 := 0; coords_y1 := 0; obj_size := (304, 26);
     obj_style := style0;
     ext_attr :=
       {| col_cnt := 3; row_cnt := 2;
          cell_data := Some [Some [5; 72; 105; 0]; Some [6; 0]; None;
                             None; Some [0; 65; 66; 67; 0]; None];
          cell_style := style0;
          col_w := replicate 12 100 |} |}.

(** A 1x1 table whose only cell holds "A". *)
Definition table_A : lv_obj_t :=
  {| coords_x1 := 0; coords_y1 := 0; obj_size := (104, 14);
     obj_style := style0;
     ext_attr :=
       {| col_cnt := 1; row_cnt := 1;
          cell_data := Some [Some [0; 65; 0]];
          cell_style := style0;
          col_w := replicate 12 100 |} |}.

(** An allocator whose memory still holds a pointer to the block "A". *)
Definition stale : nat -> cell_ptr := fun _ => Some [0; 65; 0].

(** The row and the column a call was drawn for. *)
Definition call_row (c : draw_call) : Z :=
  match c with
  | AncestorDesign => -1
  | DrawRect row _ _ => row
  | DrawLabel row _ _ _ _ => row
  end.

Definition call_col (c : draw_call) : Z :=
  match c with
  | AncestorDesign => -1
  | DrawRect _ col _ => col
  | DrawLabel _ col _ _ _ => col
  end.

Definition calls_of_row (r : Z) (calls : list draw_call) : list draw_call :=
  List.filter (fun c => call_row c =? r) calls.

(** The cells drawn with a text: the column, the text and the width of the
    rectangle of every rectangle that is followed by a label. *)
Fixpoint rect_label_spans (calls : list draw_call)
    : list (Z * list Z * lv_coord_t) :=
  match calls with
  | [] => []
  | DrawRect _ col a :: rest =>
      match rest with
      | DrawLabel _ _ _ txt _ :: _ => (col, txt, x2 a - x1 a) :: rect_label_spans rest
      | _ => rect_label_spans rest
      end
  | _ :: rest => rect_label_spans rest
  end.

(** The cells measured: the column, the text and the width offered to the
    text primitive plus the cell padding [pad] on both sides. *)
Definition measured_spans (pad : lv_coord_t) (log : list measure_call)
    : list (Z * list Z * lv_coord_t) :=
  (fun c => (m_col c, m_txt c, m_width c + 2 * pad)) <$> log.

(** What the column loop of the renderer draws behind the rectangle of a
    cell whose slot is [p]. *)
Definition design_label (e : lv_table_ext_t) (row col : Z)
    (area_x1 area_y1 area_x2 area_y2 : lv_coord_t) (p : cell_ptr)
    (txt_flags : lv_txt_flag_t) : option (lv_txt_flag_t * list draw_call) :=
  match p with
  | Some b =>
      format ← idx b 0;
      txt ← c_str (drop 1 b);
      Some (align_txt_flags format txt_flags,
            [DrawLabel row col
               {| x1 := area_x1 + body_padding_hor (cell_style e);
                  x2 := area_x2 - body_padding_hor (cell_style e);
                  y1 := area_y1 + body_padding_ver (cell_style e);
                  y2 := area_y2 - body_padding_ver (cell_style e) |}
               txt (align_txt_flags format txt_flags)])
  | None => Some (txt_flags, [])
  end.

Definition no_label_head (calls : list draw_call) : Prop :=
  match calls with
  | DrawLabel _ _ _ _ _ :: _ => False
  | _ => True
  end.

(** ** Signals *)

(** The two results a signal function returns, as the source names them. *)
Inductive lv_res_t := LV_RES_INV | LV_RES_OK.

(** The signals [lv_table_signal] handles itself, and the others. *)
Inductive lv_signal_t :=
| LV_SIGNAL_CLEANUP
| LV_SIGNAL_GET_TYPE
| LV_SIGNAL_OTHER (code : Z).

(** [lv_obj_type_t]: the array [type] of type names. *)
Definition lv_obj_type_t := list (option (list Z)).

(** The string literal "lv_table". *)
Definition lv_table_type_name : list Z :=
  [108; 118; 95; 116; 97; 98; 108; 101; 0].

Definition wrap8 (z : Z) : Z := z mod 256.

(** The loop of the cleanup signal:
    [for(cell = 0; cell < ext->col_cnt * ext->row_cnt; cell++)] with a
    16-bit [cell]; a slot that is not NULL is freed and set to NULL. *)
Fixpoint cleanup_cells (fuel : nat) (e : lv_table_ext_t) (cell : Z)
    : option lv_table_ext_t :=
  if cell <? col_cnt e * row_cnt e then
    match fuel with
    | O => None
    | S n =>
        p ← read_slot e cell;
        e ← match p with
            | Some _ => write_slot e cell None
            | None => Some e
            end;
        cleanup_cells n e (wrap16 (cell + 1))
    end
  else Some e.

(** The loop of the type query:
    [for(i = 0; i < LV_MAX_ANCESTOR_NUM - 1; i++) if(buf->type[i] == NULL) break;]
    with an 8-bit [i]; it yields the final [i]. *)
Fixpoint find_type_slot (fuel : nat) (max_ancestor_num : Z)
    (buf : lv_obj_type_t) (i : Z) : option Z :=
  if i <? max_ancestor_num - 1 then
    match fuel with
    | O => None
    | S n =>
        p ← idx buf i;
        match p with
        | None => Some i
        | Some _ => find_type_slot n max_ancestor_num buf (wrap8 (i + 1))
        end
    end
  else Some i.

(** [lv_table_signal]. The ancestor's signal function is not part of the
    file: [res] is what it returned, and [t] and [buf] are the table and the
    signal's parameter as it left them. [max_ancestor_num] is the constant
    LV_MAX_ANCESTOR_NUM of lv_obj.h. *)
Definition lv_table_signal (max_ancestor_num : Z) (res : lv_res_t)
    (t : lv_obj_t) (sign : lv_signal_t) (buf : lv_obj_type_t)
    : option (lv_res_t * lv_obj_t * lv_obj_type_t) :=
  match res with
  | LV_RES_INV => Some (res, t, buf)
  | LV_RES_OK =>
      match sign with
      | LV_SIGNAL_CLEANUP =>
          let e := ext_attr t in
          e ← cleanup_cells (Z.to_nat (col_cnt e * row_cnt e)) e 0;
          Some (res, with_ext t e, buf)
      | LV_SIGNAL_GET_TYPE =>
          i ← find_type_slot (Z.to_nat max_ancestor_num) max_ancestor_num buf 0;
          _ ← idx buf i;
          Some (res, t, <[Z.to_nat i := Some lv_table_type_name]> buf)
      | LV_SIGNAL_OTHER _ => Some (res, t, buf)
      end
  end.

(** ** Observations on the calls drawn *)

(** The rectangles among [calls] abut from [x] to [x']: each starts where
    the one before ended. *)
Fixpoint rects_abut (x : lv_coord_t) (calls : list draw_call)
    (x' : lv_coord_t) : Prop :=
  match calls with
  | [] => x = x'
  | DrawRect _ _ a :: rest => x1 a = x /\ rects_abut (x2 a) rest x'
  | _ :: rest => rects_abut x rest x'
  end.

(** Every label among [calls] has the area of the rectangle drawn before
    it, [prev] at the start, less the padding on each side. *)
Fixpoint labels_inset (pad_hor pad_ver : lv_coord_t) (prev : option lv_area_t)
    (calls : list draw_call) : Prop :=
  match calls with
  | [] => True
  | DrawRect _ _ a :: rest => labels_inset pad_hor pad_ver (Some a) rest
  | DrawLabel _ _ ta _ _ :: rest =>
      match prev with
      | Some a =>
          ta = {| x1 := x1 a + pad_hor; y1 := y1 a + pad_ver;
                  x2 := x2 a - pad_hor; y2 := y2 a - pad_ver |}
      | None => False
      end /\ labels_inset pad_hor pad_ver prev rest
  | AncestorDesign :: rest => labels_inset pad_hor pad_ver prev rest
  end.

(** The rectangles among [calls] span the rows from [ya] to [yb]. *)
Definition rects_between (ya yb : lv_coord_t) (calls : list draw_call) : Prop :=
  Forall (fun c => match c with
                   | DrawRect _ _ a => y1 a = ya /\ y2 a = yb
                   | _ => True
                   end) calls.


(** A type-name array with "lv_obj" in its first entry. *)
Definition type_buf1 : lv_obj_type_t :=
  [Some [108; 118; 95; 111; 98; 106; 0]; None; None; None; None; None; None;
   None].

(** A table of 30000 rows and 3 columns, all cells empty. *)
Definition table_big : lv_obj_t :=
  {| coords_x1 := 0; coords_y1 := 0; obj_size := (0, 0);
     obj_style := style0;
     ext_attr :=
       {| col_cnt := 3; row_cnt := 30000;
          cell_data := Some (replicate (Z.to_nat 90000) None);
          cell_style := style0;
          col_w := replicate 12 100 |} |}.

(** A label drawn for the row that starts at slot [row_start] shows the
    text of the slot of its column, with the text flag of the alignment
    stored there. *)
Definition label_shows_slot (e : lv_table_ext_t) (row_start : Z)
    (c : draw_call) : Prop :=
  match c with
  | DrawLabel _ col _ txt flags =>
      exists b format,
        read_slot e (row_start + col) = Some (Some b) /\
        idx b 0 = Some format /\
        c_str (drop 1 b) = Some txt /\
        (format_align format = LV_LABEL_ALIGN_LEFT -> flags = LV_TXT_FLAG_NONE) /\
        (format_align format = LV_LABEL_ALIGN_RIGHT -> flags = LV_TXT_FLAG_RIGHT) /\
        (format_align format = LV_LABEL_ALIGN_CENTER -> flags = LV_TXT_FLAG_CENTER)
  | _ => True
  end.

(** The sum of what [get_row_height] returns on the [n] rows from row [k]
    on. *)
Definition rows_height (env : lv_env) (t : lv_obj_t) (k n : Z) : lv_coord_t :=
  sum_Z ((fun r => default 0 (get_row_height env t r)) <$> seqZ k n).

(** * Properties *)

(** ** The format byte *)

Lemma testbit_3 n : Z.testbit 3 n = (0 <=? n) && (n <? 2).
Proof.
  destruct (Z.leb_spec 0 n); [|by rewrite Z.testbit_neg_r by lia].
  change 3 with (Z.ones 2). destruct (Z.ltb_spec n 2); simpl.
  - apply Z.ones_spec_low; lia.
  - apply Z.ones_spec_high; lia.
Qed.

Lemma testbit_4 n : Z.testbit 4 n = (n =? 2).
Proof.
  change 4 with (2 ^ 2). rewrite Z.pow2_bits_eqb by lia. apply Z.eqb_sym.
Qed.

Lemma testbit_252 n : Z.testbit 252 n = (2 <=? n) && (n <? 8).
Proof.
  destruct (Z.leb_spec 2 n); simpl.
  - change 252 with (Z.shiftl (Z.ones 6) 2). rewrite Z.shiftl_spec by lia.
    destruct (Z.ltb_spec n 8).
    + apply Z.ones_spec_low; lia.
    + apply Z.ones_spec_high; lia.
  - destruct (Z.leb_spec 0 n); [|by rewrite Z.testbit_neg_r by lia].
    assert (n = 0 \/ n = 1) as [-> | ->] by lia; reflexivity.
Qed.

Lemma testbit_251 n : Z.testbit 251 n = (0 <=? n) && (n <? 8) && negb (n =? 2).
Proof.
  change 251 with (Z.ldiff (Z.ones 8) 4).
  destruct (Z.leb_spec 0 n); [|by rewrite Z.testbit_neg_r by lia].
  rewrite Z.ldiff_spec, testbit_4. simpl. f_equal.
  destruct (Z.ltb_spec n 8).
  - apply Z.ones_spec_low; lia.
  - apply Z.ones_spec_high; lia.
Qed.

Lemma format_align_set_align f a :
  format_align (format_set_align f a) = Z.land a 3.
Proof.
  unfold format_align, format_set_align. apply Z.bits_inj'. intros n Hn.
  rewrite !Z.land_spec, Z.lor_spec, !Z.land_spec, testbit_3, testbit_252.
  destruct (Z.leb_spec 2 n), (Z.ltb_spec n 2), (Z.leb_spec 0 n); try lia;
    simpl; rewrite ?andb_false_r, ?andb_true_r, ?orb_false_r; reflexivity.
Qed.

Lemma format_right_merge_set_align f a :
  format_right_merge (format_set_align f a) = format_right_merge f.
Proof.
  unfold format_right_merge, format_set_align.
  rewrite Z.lor_spec, !Z.land_spec, testbit_3, testbit_252. simpl.
  rewrite andb_true_r, andb_false_r, orb_false_r. reflexivity.
Qed.

Lemma format_right_merge_set_right_merge f en :
  format_right_merge (format_set_right_merge f en) = en.
Proof.
  unfold format_right_merge, format_set_right_merge.
  rewrite Z.lor_spec, Z.land_spec, testbit_251. simpl.
  rewrite andb_false_r. destruct en; reflexivity.
Qed.

Lemma format_align_set_right_merge f en :
  format_align (format_set_right_merge f en) = format_align f.
Proof.
  unfold format_align, format_set_right_merge. apply Z.bits_inj'. intros n Hn.
  rewrite !Z.land_spec, Z.lor_spec, Z.land_spec, testbit_3, testbit_251.
  assert (Z.testbit (if en then 4 else 0) n = en && (n =? 2)) as ->.
  { destruct en; [apply testbit_4 | apply Z.bits_0]. }
  destruct (Z.ltb_spec n 2), (Z.leb_spec 0 n), (Z.eqb_spec n 2),
    (Z.ltb_spec n 8); try lia; simpl;
    rewrite ?andb_false_r, ?andb_true_r, ?orb_false_r; reflexivity.
Qed.

Lemma format_align_small a : 0 <= a < 4 -> Z.land a 3 = a.
Proof.
  intros H. change 3 with (Z.ones 2). rewrite Z.land_ones by lia.
  apply Z.mod_small. lia.
Qed.

(** ** Well-formed tables *)

Lemma wrap16_small z : 0 <= z < 65536 -> wrap16 z = z.
Proof. intros H. apply Z.mod_small. lia. Qed.

Lemma idx_Some {A} (a : list A) i x :
  idx a i = Some x <-> 0 <= i /\ a !! Z.to_nat i = Some x.
Proof.
  unfold idx. destruct (Z.ltb_spec i 0).
  - split; [discriminate | lia].
  - split; [split; [lia | assumption] | tauto].
Qed.

Lemma idx_is_Some {A} (a : list A) i :
  0 <= i < Z.of_nat (length a) -> is_Some (idx a i).
Proof.
  intros H. unfold idx. destruct (Z.ltb_spec i 0); [lia|].
  apply lookup_lt_is_Some. lia.
Qed.

Lemma idx_lt {A} (a : list A) i x :
  idx a i = Some x -> 0 <= i < Z.of_nat (length a).
Proof.
  intros [H1 H2]%idx_Some. apply lookup_lt_Some in H2. lia.
Qed.

Lemma store_ok_inv e : store_ok e = true -> store_inv e.
Proof.
  unfold store_ok, store_inv. destruct (cell_data e) as [cells|].
  - rewrite !andb_true_iff. intros [[H1 H2] _].
    apply Z.ltb_lt in H1. apply Z.eqb_eq in H2. split; [eauto | lia].
  - intros H%Z.eqb_eq. split; [lia | reflexivity].
Qed.

Lemma table_ok_spec env t :
  table_ok env t = true ->
  let e := ext_attr t in
  0 <= row_cnt e /\ 0 <= col_cnt e < LV_TABLE_COL_MAX env /\
  Z.of_nat (length (col_w e)) = LV_TABLE_COL_MAX env /\
  row_cnt e * col_cnt e < 65536 /\ store_ok e = true.
Proof.
  unfold table_ok. rewrite !andb_true_iff.
  rewrite !Z.leb_le, !Z.ltb_lt, Z.eqb_eq. tauto.
Qed.

Lemma store_ok_cells e cells :
  store_ok e = true -> cell_data e = Some cells ->
  0 < row_cnt e * col_cnt e /\
  Z.of_nat (length cells) = row_cnt e * col_cnt e /\
  Forall (fun p => slot_ok p = true) cells.
Proof.
  unfold store_ok. intros H Hc. rewrite Hc in H. revert H.
  rewrite !andb_true_iff.
  rewrite Z.ltb_lt, Z.eqb_eq, List.forallb_forall. intros [[? ?] Hf].
  repeat split; try done. apply List.Forall_forall. exact Hf.
Qed.

(** ** The merge loops *)

Lemma col_w_sum_0 e a : col_w_sum e a 0 = 0.
Proof. reflexivity. Qed.

Lemma col_w_sum_cons e a n :
  0 <= n -> col_w_sum e a (n + 1) = default 0 (idx (col_w e) a) + col_w_sum e (a + 1) n.
Proof.
  intros Hn. unfold col_w_sum.
  replace (n + 1) with (Z.succ n) by lia. rewrite seqZ_cons by lia.
  simpl. replace (Z.pred (Z.succ n)) with n by lia.
  replace (Z.succ a) with (a + 1) by lia. reflexivity.
Qed.

(** The two merge loops compute the same chain: the renderer's loop, started
    on a right edge [x + w], ends on [x + w'] exactly when the loop of
    [get_row_height], started on the width [w], ends on [w']. *)
Lemma design_merge_row_height_merge fuel e cell col :
  forall col_merge x w,
    design_merge fuel e cell col col_merge (x + w) =
    (fun r => (r.1, x + r.2)) <$> row_height_merge fuel e cell col col_merge w.
Proof.
  induction fuel as [|n IH]; intros cm x w; simpl.
  - destruct (cm + col <? col_cnt e - 1); reflexivity.
  - destruct (cm + col <? col_cnt e - 1); [|reflexivity].
    destruct (read_slot e (cell + cm)) as [[b|]|]; simpl; try reflexivity.
    destruct (idx b 0) as [f|]; simpl; [|reflexivity].
    destruct (format_right_merge f); [|reflexivity].
    destruct (idx (col_w e) (col + cm + 1)) as [c|]; simpl; [|reflexivity].
    rewrite <- IH. f_equal. lia.
Qed.

Lemma row_height_cells_done env e row_start fuel col h :
  col_cnt e <= col ->
  row_height_cells fuel env e row_start (row_start + col) col h = Some (h, []).
Proof.
  intros Hcol. destruct fuel; simpl;
    destruct (Z.ltb_spec (row_start + col) (row_start + col_cnt e)); try lia;
    reflexivity.
Qed.

Lemma LV_MATH_MAX_ge a b : b <= LV_MATH_MAX a b.
Proof. unfold LV_MATH_MAX. destruct (Z.gtb_spec a b); lia. Qed.

Section row.
Context (env : lv_env) (e : lv_table_ext_t) (cells : list cell_ptr).
Context (row_start : Z).
Hypothesis Hcd : cell_data e = Some cells.
Hypothesis Hslots : Forall (fun p => slot_ok p = true) cells.
Hypothesis Hcolw : col_cnt e <= Z.of_nat (length (col_w e)).
Hypothesis Hrow0 : 0 <= row_start.
Hypothesis Hrow : row_start + col_cnt e <= Z.of_nat (length cells).
Hypothesis H16 : row_start + col_cnt e < 65536.

Lemma read_slot_row i :
  0 <= i < col_cnt e ->
  exists p, read_slot e (row_start + i) = Some p /\ slot_ok p = true.
Proof.
  intros Hi. unfold read_slot. rewrite Hcd. simpl.
  destruct (idx_is_Some cells (row_start + i)) as [p Hp]; [lia|].
  exists p. split; [exact Hp|].
  apply idx_Some in Hp as [_ Hp].
  eapply (proj1 (List.Forall_forall _ _) Hslots).
  apply list_elem_of_In. eapply list_elem_of_lookup_2. exact Hp.
Qed.

Lemma slot_ok_format b :
  slot_ok (Some b) = true ->
  exists f txt, idx b 0 = Some f /\ c_str (drop 1 b) = Some txt.
Proof.
  unfold slot_ok. destruct (idx b 0) as [f|]; [|discriminate].
  destruct (c_str (drop 1 b)) as [txt|]; [|discriminate]. eauto.
Qed.

(** The merge loop of [get_row_height] terminates, and its result is the
    merge chain of the cell: every slot before the end of the chain has
    its flag set, the chain stops at the first slot without the flag or
    on the last column, and the width grows by the columns absorbed. *)
Lemma row_height_merge_spec fuel col :
  0 <= col ->
  forall col_merge w,
    0 <= col_merge -> col + col_merge <= col_cnt e - 1 ->
    (Z.to_nat (col_cnt e - 1 - col - col_merge) <= fuel)%nat ->
    exists m w',
      row_height_merge fuel e (row_start + col) col col_merge w = Some (m, w') /\
      col_merge <= m /\ col + m <= col_cnt e - 1 /\
      (forall k, col_merge <= k < m ->
                 right_merge_at e (row_start + col + k) = true) /\
      (col + m = col_cnt e - 1 \/
       right_merge_at e (row_start + col + m) = false) /\
      w' = w + col_w_sum e (col + col_merge + 1) (m - col_merge).
Proof.
  intros Hcol. induction fuel as [|n IH]; intros cm w Hcm Hle Hfuel.
  - exists cm, w. simpl. destruct (Z.ltb_spec (cm + col) (col_cnt e - 1)); [lia|].
    rewrite Z.sub_diag, col_w_sum_0.
    split; [reflexivity|]. split; [lia|]. split; [lia|].
    split; [intros; lia|]. split; [left; lia | lia].
  - simpl. destruct (Z.ltb_spec (cm + col) (col_cnt e - 1)) as [Hlt|Hge].
    2:{ exists cm, w. rewrite Z.sub_diag, col_w_sum_0.
        split; [reflexivity|]. split; [lia|]. split; [lia|].
        split; [intros; lia|]. split; [left; lia | lia]. }
    destruct (read_slot_row (col + cm)) as (p & Hp & Hok); [lia|].
    rewrite Z.add_assoc in Hp. rewrite Hp. simpl.
    assert (Hflag : right_merge_at e (row_start + col + cm) =
                    match p with
                    | Some b => match idx b 0 with
                                | Some f => format_right_merge f
                                | None => false end
                    | None => false end).
    { unfold right_merge_at. rewrite Hp. reflexivity. }
    destruct p as [b|].
    2:{ exists cm, w. rewrite Z.sub_diag, col_w_sum_0.
        split; [reflexivity|]. split; [lia|]. split; [lia|].
        split; [intros; lia|]. split; [by right | lia]. }
    destruct (slot_ok_format b Hok) as (f & txt & Hf & _).
    rewrite Hf in Hflag |- *. simpl.
    destruct (format_right_merge f) eqn:Hm.
    2:{ exists cm, w. rewrite Z.sub_diag, col_w_sum_0.
        split; [reflexivity|]. split; [lia|]. split; [lia|].
        split; [intros; lia|]. split; [by right | lia]. }
    destruct (idx_is_Some (col_w e) (col + cm + 1)) as [c Hc]; [lia|].
    rewrite Hc. simpl. rewrite wrap16_small by lia.
    destruct (IH (cm + 1) (w + c)) as (m & w' & Hr & H1 & H2 & H3 & H4 & H5);
      [lia | lia | lia |].
    exists m, w'. split; [exact Hr|]. split; [lia|]. split; [lia|].
    split; [|split; [exact H4|]].
    + intros k Hk. destruct (Z.eq_dec k cm) as [->|]; [exact Hflag|].
      apply H3. lia.
    + rewrite H5. replace (m - cm) with (m - (cm + 1) + 1) by lia.
      rewrite col_w_sum_cons by lia. rewrite Hc. simpl.
      replace (col + (cm + 1) + 1) with (col + cm + 1 + 1) by lia. lia.
Qed.

(** One iteration of the cell loop of [get_row_height] on a slot with
    content: the text is measured on the merged width and the loop
    resumes behind the columns absorbed. *)
Lemma row_height_cells_content n col h b c m w txt :
  0 <= col < col_cnt e ->
  read_slot e (row_start + col) = Some (Some b) ->
  idx (col_w e) col = Some c ->
  row_height_merge (col_fuel e) e (row_start + col) col 0 c = Some (m, w) ->
  0 <= m -> col + m <= col_cnt e - 1 ->
  c_str (drop 1 b) = Some txt ->
  let width := w - 2 * body_padding_hor (cell_style e) in
  let size := lv_txt_get_size env txt (text_font (cell_style e))
                (text_letter_space (cell_style e))
                (text_line_space (cell_style e)) width LV_TXT_FLAG_NONE in
  row_height_cells (S n) env e row_start (row_start + col) col h =
  '(h', log) ← row_height_cells n env e row_start
                 (row_start + (col + m + 1)) (col + m + 1)
                 (LV_MATH_MAX (snd size) h);
  Some (h', {| m_col := col; m_cell := row_start + col; m_txt := txt;
               m_width := width |} :: log).
Proof.
  clear Hcd Hslots Hcolw Hrow cells.
  intros Hcol Hp Hc Hmerge Hm Hle Htxt width size. simpl.
  destruct (Z.ltb_spec (row_start + col) (row_start + col_cnt e)); [|lia].
  rewrite Hp. simpl. rewrite Hc. simpl. rewrite Hmerge. simpl.
  rewrite Htxt. simpl.
  rewrite !(wrap16_small (row_start + col + m)) by lia.
  rewrite !(wrap16_small (col + m)) by lia.
  rewrite !wrap16_small by lia.
  replace (row_start + col + m + 1) with (row_start + (col + m + 1)) by lia.
  reflexivity.
Qed.

(** One iteration on an empty slot: nothing is measured. *)
Lemma row_height_cells_empty n col h :
  0 <= col < col_cnt e ->
  read_slot e (row_start + col) = Some None ->
  row_height_cells (S n) env e row_start (row_start + col) col h =
  row_height_cells n env e row_start (row_start + (col + 1)) (col + 1) h.
Proof.
  clear Hcd Hslots Hcolw Hrow cells.
  intros Hcol Hp. simpl.
  destruct (Z.ltb_spec (row_start + col) (row_start + col_cnt e)); [|lia].
  rewrite Hp. simpl. rewrite !wrap16_small by lia.
  replace (row_start + col + 1) with (row_start + (col + 1)) by lia.
  reflexivity.
Qed.

(** The cell loop of [get_row_height] terminates on a well-formed row; it
    measures only cells of the row, from the starting column on, and never
    lowers the height. *)
Lemma row_height_cells_spec fuel :
  forall col h,
    0 <= col <= col_cnt e ->
    (Z.to_nat (col_cnt e - col) <= fuel)%nat ->
    exists h' log,
      row_height_cells fuel env e row_start (row_start + col) col h
        = Some (h', log) /\
      h <= h' /\
      Forall (fun c => col <= m_col c < col_cnt e /\
                       m_cell c = row_start + m_col c) log.
Proof.
  induction fuel as [|n IH]; intros col h Hcol Hfuel.
  - exists h, []. rewrite row_height_cells_done by lia.
    split; [reflexivity|]. split; [lia | constructor].
  - destruct (Z.eq_dec col (col_cnt e)) as [Heq|Hne].
    { exists h, []. rewrite row_height_cells_done by lia.
      split; [reflexivity|]. split; [lia | constructor]. }
    destruct (read_slot_row col) as (p & Hp & Hok); [lia|].
    destruct p as [b|].
    + destruct (slot_ok_format b Hok) as (f & txt & Hf & Htxt).
      destruct (idx_is_Some (col_w e) col) as [c Hc]; [lia|].
      destruct (row_height_merge_spec (col_fuel e) col ltac:(lia) 0 c)
        as (m & w & Hmerge & Hm0 & Hm1 & _); [lia | lia | unfold col_fuel; lia |].
      erewrite row_height_cells_content by (eauto; lia).
      destruct (IH (col + m + 1)
                   (LV_MATH_MAX
                      (snd (lv_txt_get_size env txt (text_font (cell_style e))
                              (text_letter_space (cell_style e))
                              (text_line_space (cell_style e))
                              (w - 2 * body_padding_hor (cell_style e))
                              LV_TXT_FLAG_NONE)) h))
        as (h' & log & Hr & Hh & Hlog); [lia | lia |].
      rewrite Hr. simpl. eexists _, _. split; [reflexivity|].
      split; [pose proof (LV_MATH_MAX_ge
                 (snd (lv_txt_get_size env txt (text_font (cell_style e))
                              (text_letter_space (cell_style e))
                              (text_line_space (cell_style e))
                              (w - 2 * body_padding_hor (cell_style e))
                              LV_TXT_FLAG_NONE)) h); lia|].
      constructor; [simpl; split; [lia | reflexivity]|].
      eapply Forall_impl; [exact Hlog|]. simpl. intros c0 [? ?]. split; [lia|done].
    + rewrite row_height_cells_empty by (done || lia).
      destruct (IH (col + 1) h) as (h' & log & Hr & Hh & Hlog); [lia | lia |].
      exists h', log. split; [exact Hr|]. split; [exact Hh|].
      eapply Forall_impl; [exact Hlog|]. simpl. intros c0 [? ?]. split; [lia|done].
Qed.
End row.

(** ** Well-formed tables have a layout *)

Lemma table_ok_row env t cells r :
  table_ok env t = true ->
  cell_data (ext_attr t) = Some cells ->
  0 <= r < row_cnt (ext_attr t) ->
  let e := ext_attr t in
  Forall (fun p => slot_ok p = true) cells /\
  col_cnt e <= Z.of_nat (length (col_w e)) /\
  0 <= r * col_cnt e /\
  r * col_cnt e + col_cnt e <= Z.of_nat (length cells) /\
  r * col_cnt e + col_cnt e < 65536.
Proof.
  intros Hok Hcd Hr. cbv zeta.
  destruct (table_ok_spec _ _ Hok) as (HR & HC & HW & H16 & Hst).
  destruct (store_ok_cells _ _ Hst Hcd) as (Hpos & Hlen & Hall).
  cbv zeta in *. set (C := col_cnt (ext_attr t)) in *.
  set (R := row_cnt (ext_attr t)) in *.
  assert (r * C + C <= R * C) by nia.
  split; [exact Hall|]. split; [lia|]. split; [nia|]. split; lia.
Qed.

(** [get_row_height] returns on every row of a well-formed table, and the
    text primitive is only called for cells of that row. *)
Lemma get_row_height_log_total env t r :
  table_ok env t = true ->
  0 <= r < row_cnt (ext_attr t) ->
  exists h log,
    get_row_height_log env t r = Some (h, log) /\
    Forall (fun c => 0 <= m_col c < col_cnt (ext_attr t) /\
                     m_cell c = r * col_cnt (ext_attr t) + m_col c) log.
Proof.
  intros Hok Hr. unfold get_row_height_log.
  destruct (table_ok_spec _ _ Hok) as (HR & HC & HW & H16 & Hst).
  destruct (cell_data (ext_attr t)) as [cells|] eqn:Hcd.
  - destruct (table_ok_row _ _ _ _ Hok Hcd Hr) as (Hall & Hw & H0 & Hlen & Hlt).
    rewrite wrap16_small by lia.
    destruct (row_height_cells_spec env (ext_attr t) cells
                (r * col_cnt (ext_attr t)) Hcd Hall Hw H0 Hlen Hlt
                (col_fuel (ext_attr t)) 0
                (lv_font_get_height env (text_font (cell_style (ext_attr t)))))
      as (h & log & Hrun & _ & Hlog); [lia | unfold col_fuel; lia |].
    rewrite Z.add_0_r in Hrun. rewrite Hrun. simpl.
    eexists _, _. split; [reflexivity | exact Hlog].
  - unfold store_ok in Hst. rewrite Hcd in Hst. apply Z.eqb_eq in Hst.
    assert (col_cnt (ext_attr t) = 0) as HC0 by nia.
    pose proof (row_height_cells_done env (ext_attr t)
                  (wrap16 (r * col_cnt (ext_attr t))) (col_fuel (ext_attr t)) 0
                  (lv_font_get_height env (text_font (cell_style (ext_attr t)))))
      as Hrun.
    rewrite Z.add_0_r in Hrun. rewrite Hrun by lia. simpl.
    eexists _, _. split; [reflexivity | constructor].
Qed.

Lemma get_row_height_total env t r :
  table_ok env t = true ->
  0 <= r < row_cnt (ext_attr t) ->
  is_Some (get_row_height env t r).
Proof.
  intros Hok Hr. unfold get_row_height.
  destruct (get_row_height_log_total env t r Hok Hr) as (h & log & -> & _).
  simpl. eauto.
Qed.

Lemma sum_loop_Forall2 f ixs xs :
  Forall2 (fun i x => f i = Some x) ixs xs ->
  forall acc, sum_loop f ixs acc = Some (acc + sum_Z xs).
Proof.
  induction 1 as [|i x ixs xs Hi _ IH]; intros acc; simpl.
  - f_equal. lia.
  - rewrite Hi. simpl. rewrite IH. f_equal. unfold sum_Z. simpl. lia.
Qed.


Lemma col_w_sum_Forall2 e a n :
  0 <= a -> a + n <= Z.of_nat (length (col_w e)) ->
  Forall2 (fun i x => idx (col_w e) i = Some x) (seqZ a n)
          ((fun i => default 0 (idx (col_w e) i)) <$> seqZ a n).
Proof.
  intros Ha Hn. apply Forall2_fmap_r, Forall_Forall2_diag.
  apply Forall_forall. intros i Hi%elem_of_seqZ.
  destruct (idx_is_Some (col_w e) i) as [x Hx]; [lia|].
  simpl. rewrite Hx. reflexivity.
Qed.

Lemma row_heights_exist env t :
  table_ok env t = true ->
  exists hs, Forall2 (fun r h => get_row_height env t r = Some h)
                     (seqZ 0 (row_cnt (ext_attr t))) hs.
Proof.
  intros Hok.
  assert (is_Some (mapM (get_row_height env t) (seqZ 0 (row_cnt (ext_attr t)))))
    as [hs Hhs].
  { apply mapM_is_Some. apply Forall_forall. intros r Hr%elem_of_seqZ.
    apply get_row_height_total; [exact Hok | lia]. }
  exists hs. by apply mapM_Some.
Qed.

(** ** The store under a slot write *)

Lemma c_str_terminated txt rest :
  Forall (fun c => c <> 0) txt -> c_str (txt ++ 0 :: rest) = Some txt.
Proof.
  induction 1 as [|c txt Hc _ IH]; simpl; [reflexivity|].
  destruct (Z.eqb_spec c 0); [contradiction|]. rewrite IH. reflexivity.
Qed.

Lemma c_str_nul_is_Some txt : is_Some (c_str (txt ++ [0])).
Proof.
  induction txt as [|c txt [s IH]]; simpl; [eauto|].
  destruct (c =? 0); [eauto|]. rewrite IH. simpl. eauto.
Qed.

Lemma slot_ok_value format txt : slot_ok (Some (format :: txt ++ [0])) = true.
Proof.
  unfold slot_ok. change (drop 1 (format :: txt ++ [0])) with (txt ++ [0]).
  destruct (c_str_nul_is_Some txt) as [s ->]. reflexivity.
Qed.

Lemma idx_0_cons {A} (b : list A) x : idx b 0 = Some x -> exists r, b = x :: r.
Proof. destruct b as [|y r]; [discriminate|]. intros [= ->]. eauto. Qed.

Lemma slot_ok_set_format b format :
  slot_ok (Some b) = true -> slot_ok (Some (<[0%nat := format]> b)) = true.
Proof.
  unfold slot_ok. destruct (idx b 0) as [f|] eqn:Hf; [|discriminate].
  destruct (idx_0_cons _ _ Hf) as [r ->]. simpl. trivial.
Qed.

Lemma slot_ok_ensure junk p :
  slot_ok p = true -> slot_ok (Some (ensure_slot junk p)) = true.
Proof. destruct p; [trivial | reflexivity]. Qed.

Lemma cell_index_range (R C row col : Z) :
  0 <= row < R -> 0 <= col < C -> 0 <= row * C + col < R * C.
Proof. intros. assert (row * C + C <= R * C) by nia. nia. Qed.

(** Writing a usable slot of a well-formed table succeeds, leaves it
    well-formed and changes that slot only. *)
Lemma write_slot_ok env t i p :
  table_ok env t = true ->
  0 <= i < row_cnt (ext_attr t) * col_cnt (ext_attr t) ->
  slot_ok p = true ->
  exists cells,
    cell_data (ext_attr t) = Some cells /\
    write_slot (ext_attr t) i p
      = Some (with_cell_data (ext_attr t) (Some (<[Z.to_nat i := p]> cells))) /\
    table_ok env (with_ext t (with_cell_data (ext_attr t)
                                (Some (<[Z.to_nat i := p]> cells)))) = true /\
    read_slot (with_cell_data (ext_attr t) (Some (<[Z.to_nat i := p]> cells))) i
      = Some p.
Proof.
  intros Hok Hi Hp.
  destruct (table_ok_spec _ _ Hok) as (HR & HC & HW & H16 & Hst).
  destruct (cell_data (ext_attr t)) as [cells|] eqn:Hcd.
  2:{ unfold store_ok in Hst. rewrite Hcd in Hst. apply Z.eqb_eq in Hst. lia. }
  destruct (store_ok_cells _ _ Hst Hcd) as (Hpos & Hlen & Hall).
  exists cells. split; [reflexivity|].
  destruct (idx_is_Some cells i) as [q Hq]; [lia|].
  split; [|split].
  - unfold write_slot. rewrite Hcd. simpl. rewrite Hq. reflexivity.
  - unfold table_ok in *. simpl.
    rewrite !andb_true_iff in Hok |- *.
    destruct Hok as [Hrest _]. split; [exact Hrest|].
    unfold store_ok. simpl. rewrite length_insert.
    rewrite !andb_true_iff. split; [split; [lia | lia]|].
    apply List.forallb_forall. intros x Hx%list_elem_of_In.
    apply list_elem_of_lookup in Hx as [k Hk].
    destruct (decide (k = Z.to_nat i)) as [->|Hne].
    + rewrite list_lookup_insert_eq in Hk by lia. by injection Hk as <-.
    + rewrite list_lookup_insert_ne in Hk by done.
      eapply (proj1 (List.Forall_forall _ _) Hall).
      apply list_elem_of_In. eapply list_elem_of_lookup_2. exact Hk.
  - unfold read_slot, idx. simpl. destruct (Z.ltb_spec i 0); [lia|].
    apply list_lookup_insert_eq. lia.
Qed.

Lemma read_slot_valid env t row col :
  table_ok env t = true ->
  0 <= row < row_cnt (ext_attr t) -> 0 <= col < col_cnt (ext_attr t) ->
  exists p, read_slot (ext_attr t) (row * col_cnt (ext_attr t) + col) = Some p /\
            slot_ok p = true.
Proof.
  intros Hok Hrow Hcol.
  destruct (table_ok_spec _ _ Hok) as (HR & HC & HW & H16 & Hst).
  pose proof (cell_index_range _ _ _ _ Hrow Hcol) as Hi.
  destruct (cell_data (ext_attr t)) as [cells|] eqn:Hcd.
  2:{ unfold store_ok in Hst. rewrite Hcd in Hst. apply Z.eqb_eq in Hst. lia. }
  destruct (store_ok_cells _ _ Hst Hcd) as (Hpos & Hlen & Hall).
  unfold read_slot. rewrite Hcd. simpl.
  destruct (idx_is_Some cells (row * col_cnt (ext_attr t) + col)) as [p Hp]; [lia|].
  exists p. split; [exact Hp|].
  apply idx_Some in Hp as [_ Hp].
  eapply (proj1 (List.Forall_forall _ _) Hall).
  apply list_elem_of_In. eapply list_elem_of_lookup_2. exact Hp.
Qed.

(** ** Recomputing the size *)

(** [refr_size] returns on a well-formed table; it sets the size from the
    column widths and the row heights and changes nothing else. *)
Lemma refr_size_spec env t :
  table_ok env t = true ->
  exists ws hs,
    Forall2 (fun i w => idx (col_w (ext_attr t)) i = Some w)
            (seqZ 0 (col_cnt (ext_attr t))) ws /\
    Forall2 (fun r h => get_row_height env t r = Some h)
            (seqZ 0 (row_cnt (ext_attr t))) hs /\
    refr_size env t =
      Some (lv_obj_set_size t
              (sum_Z ws + body_padding_hor (obj_style t) * 2)
              (sum_Z hs + body_padding_ver (obj_style t) * 2)).
Proof.
  intros Hok.
  destruct (table_ok_spec _ _ Hok) as (HR & HC & HW & H16 & Hst).
  destruct (row_heights_exist env t Hok) as [hs Hhs].
  pose proof (col_w_sum_Forall2 (ext_attr t) 0 (col_cnt (ext_attr t))) as Hws.
  eexists _, hs. split; [apply Hws; lia|]. split; [exact Hhs|].
  unfold refr_size.
  rewrite (sum_loop_Forall2 _ _ _ (Hws ltac:(lia) ltac:(lia))). simpl.
  rewrite (sum_loop_Forall2 _ _ _ Hhs). simpl. reflexivity.
Qed.

Lemma refr_size_ext env t t' : refr_size env t = Some t' -> ext_attr t' = ext_attr t.
Proof.
  unfold refr_size. intros H.
  destruct (sum_loop _ (seqZ 0 (col_cnt _)) 0); [|discriminate].
  destruct (sum_loop _ (seqZ 0 (row_cnt _)) 0); [|discriminate].
  simpl in H. by injection H as <-.
Qed.

Lemma table_ok_ext env t t' :
  ext_attr t' = ext_attr t -> table_ok env t' = table_ok env t.
Proof. unfold table_ok. by intros ->. Qed.

Lemma refr_size_total env t :
  table_ok env t = true ->
  exists t', refr_size env t = Some t' /\ ext_attr t' = ext_attr t /\
             table_ok env t' = true.
Proof.
  intros Hok. destruct (refr_size_spec env t Hok) as (ws & hs & _ & _ & Hr).
  eexists. split; [exact Hr|]. split; [reflexivity|exact Hok].
Qed.

(** ** The cell setters on a well-formed table *)

Lemma valid_cell_guard e row col :
  0 <= row < row_cnt e -> 0 <= col < col_cnt e ->
  (row >=? row_cnt e) || (col >=? col_cnt e) = false.
Proof.
  intros. destruct (Z.geb_spec row (row_cnt e)), (Z.geb_spec col (col_cnt e));
    simpl; lia || reflexivity.
Qed.

(** The format byte [lv_table_set_cell_value] writes back: the one of the
    block when there is one, the defaults otherwise. *)
Lemma set_cell_value_spec env junk t row col txt :
  table_ok env t = true ->
  0 <= row < row_cnt (ext_attr t) -> 0 <= col < col_cnt (ext_attr t) ->
  let cell := row * col_cnt (ext_attr t) + col in
  exists p format t',
    read_slot (ext_attr t) cell = Some p /\
    match p with
    | Some b => idx b 0
    | None => Some (format_set_right_merge
                      (format_set_align junk LV_LABEL_ALIGN_LEFT) false)
    end = Some format /\
    lv_table_set_cell_value env junk t row col txt = Some t' /\
    table_ok env t' = true /\
    row_cnt (ext_attr t') = row_cnt (ext_attr t) /\
    col_cnt (ext_attr t') = col_cnt (ext_attr t) /\
    read_slot (ext_attr t') cell = Some (Some (format :: txt ++ [0])).
Proof.
  intros Hok Hrow Hcol cell.
  destruct (read_slot_valid env t row col Hok Hrow Hcol) as (p & Hp & Hpok).
  fold cell in Hp.
  assert (exists format,
             match p with
             | Some b => idx b 0
             | None => Some (format_set_right_merge
                               (format_set_align junk LV_LABEL_ALIGN_LEFT) false)
             end = Some format) as [format Hformat].
  { destruct p as [b|]; [|eauto].
    unfold slot_ok in Hpok. destruct (idx b 0); [eauto | discriminate]. }
  destruct (write_slot_ok env t cell (Some (format :: txt ++ [0])) Hok)
    as (cells & Hcd & Hw & Hok' & Hread);
    [by apply cell_index_range | apply slot_ok_value |].
  destruct (refr_size_total env _ Hok') as (t' & Hr & Hext & Hok'').
  exists p, format, t'. split; [exact Hp|]. split; [exact Hformat|].
  split; [|split; [exact Hok''|]].
  - unfold lv_table_set_cell_value.
    rewrite valid_cell_guard by assumption. fold cell. rewrite Hp. simpl.
    rewrite Hformat. simpl. rewrite Hw. simpl. exact Hr.
  - rewrite Hext. simpl. split; [reflexivity|]. split; [reflexivity|exact Hread].
Qed.

(** [lv_table_set_cell_align] and [lv_table_set_cell_merge_right] rewrite
    the format byte of the block, which they allocate when it is missing. *)
Lemma set_cell_align_spec env junk t row col align :
  table_ok env t = true ->
  0 <= row < row_cnt (ext_attr t) -> 0 <= col < col_cnt (ext_attr t) ->
  let cell := row * col_cnt (ext_attr t) + col in
  exists p format t',
    read_slot (ext_attr t) cell = Some p /\
    idx (ensure_slot junk p) 0 = Some format /\
    lv_table_set_cell_align junk t row col align = Some t' /\
    table_ok env t' = true /\
    row_cnt (ext_attr t') = row_cnt (ext_attr t) /\
    col_cnt (ext_attr t') = col_cnt (ext_attr t) /\
    read_slot (ext_attr t') cell =
      Some (Some (<[0%nat := format_set_align format align]> (ensure_slot junk p))).
Proof.
  intros Hok Hrow Hcol cell.
  destruct (read_slot_valid env t row col Hok Hrow Hcol) as (p & Hp & Hpok).
  fold cell in Hp.
  pose proof (slot_ok_ensure junk p Hpok) as Hens.
  assert (exists format, idx (ensure_slot junk p) 0 = Some format) as [format Hf].
  { unfold slot_ok in Hens. destruct (idx (ensure_slot junk p) 0); [eauto|discriminate]. }
  destruct (write_slot_ok env t cell
              (Some (<[0%nat := format_set_align format align]> (ensure_slot junk p))) Hok)
    as (cells & Hcd & Hw & Hok' & Hread);
    [by apply cell_index_range | by apply slot_ok_set_format |].
  eexists p, format, _. split; [exact Hp|]. split; [exact Hf|].
  split; [|split; [exact Hok'|]].
  - unfold lv_table_set_cell_align.
    rewrite valid_cell_guard by assumption. fold cell. rewrite Hp. simpl.
    rewrite Hf. simpl. rewrite Hw. reflexivity.
  - simpl. split; [reflexivity|]. split; [reflexivity|exact Hread].
Qed.

Lemma set_cell_merge_right_spec env junk t row col en :
  table_ok env t = true ->
  0 <= row < row_cnt (ext_attr t) -> 0 <= col < col_cnt (ext_attr t) ->
  let cell := row * col_cnt (ext_attr t) + col in
  exists p format t',
    read_slot (ext_attr t) cell = Some p /\
    idx (ensure_slot junk p) 0 = Some format /\
    lv_table_set_cell_merge_right env junk t row col en = Some t' /\
    table_ok env t' = true /\
    row_cnt (ext_attr t') = row_cnt (ext_attr t) /\
    col_cnt (ext_attr t') = col_cnt (ext_attr t) /\
    read_slot (ext_attr t') cell =
      Some (Some (<[0%nat := format_set_right_merge format en]> (ensure_slot junk p))).
Proof.
  intros Hok Hrow Hcol cell.
  destruct (read_slot_valid env t row col Hok Hrow Hcol) as (p & Hp & Hpok).
  fold cell in Hp.
  pose proof (slot_ok_ensure junk p Hpok) as Hens.
  assert (exists format, idx (ensure_slot junk p) 0 = Some format) as [format Hf].
  { unfold slot_ok in Hens. destruct (idx (ensure_slot junk p) 0); [eauto|discriminate]. }
  destruct (write_slot_ok env t cell
              (Some (<[0%nat := format_set_right_merge format en]> (ensure_slot junk p))) Hok)
    as (cells & Hcd & Hw & Hok' & Hread);
    [by apply cell_index_range | by apply slot_ok_set_format |].
  destruct (refr_size_total env _ Hok') as (t' & Hr & Hext & Hok'').
  eexists p, format, t'. split; [exact Hp|]. split; [exact Hf|].
  split; [|split; [exact Hok''|]].
  - unfold lv_table_set_cell_merge_right.
    rewrite valid_cell_guard by assumption. fold cell. rewrite Hp. simpl.
    rewrite Hf. simpl. replace (if en then true else false) with en by (by destruct en).
    rewrite Hw. simpl. exact Hr.
  - rewrite Hext. simpl. split; [reflexivity|]. split; [reflexivity|exact Hread].
Qed.

(** The text of a block does not depend on its format byte. *)
Lemma drop_1_set_format (b : list Z) format :
  drop 1 (<[0%nat := format]> b) = drop 1 b.
Proof. destruct b; reflexivity. Qed.

(** ** Cell accessors *)

(** C6. Out-of-range behaviour: for a row or a column beyond the counts the
    getters return the empty string, left and false, and the three cell
    setters return with the table unchanged. *)
Theorem out_of_range_access env t row col :
  row >= row_cnt (ext_attr t) \/ col >= col_cnt (ext_attr t) ->
  lv_table_get_cell_value t row col = Some [] /\
  lv_table_get_cell_align t row col = Some LV_LABEL_ALIGN_LEFT /\
  lv_table_get_cell_merge_right t row col = Some false /\
  (forall junk txt, lv_table_set_cell_value env junk t row col txt = Some t) /\
  (forall junk align, lv_table_set_cell_align junk t row col align = Some t) /\
  (forall junk en,
     lv_table_set_cell_merge_right env junk t row col en = Some t).
Proof.
  intros Hout.
  assert ((row >=? row_cnt (ext_attr t)) || (col >=? col_cnt (ext_attr t)) = true)
    as Hguard.
  { apply orb_true_iff.
    destruct Hout; [left | right]; apply Z.geb_le; lia. }
  unfold lv_table_get_cell_value, lv_table_get_cell_align,
    lv_table_get_cell_merge_right, lv_table_set_cell_value,
    lv_table_set_cell_align, lv_table_set_cell_merge_right.
  rewrite Hguard. repeat split.
Qed.

Lemma out_of_range_access_witness :
  lv_table_get_cell_value table1 2 0 = Some [] /\
  lv_table_get_cell_align table1 2 0 = Some LV_LABEL_ALIGN_LEFT /\
  lv_table_get_cell_merge_right table1 2 0 = Some false /\
  (forall junk txt, lv_table_set_cell_value env0 junk table1 2 0 txt = Some table1) /\
  (forall junk align, lv_table_set_cell_align junk table1 2 0 align = Some table1) /\
  (forall junk en,
     lv_table_set_cell_merge_right env0 junk table1 2 0 en = Some table1).
Proof. apply (out_of_range_access env0 table1 2 0). left. simpl. lia. Defined.

(** C7. Format preservation across a value update: on an allocated slot of
    a valid cell [lv_table_set_cell_value] returns, and the slot's format
    byte, hence the alignment and the right-merge flag read back, is the one
    it had before the call. *)
Theorem set_cell_value_keeps_format env junk t row col txt b :
  table_ok env t = true ->
  0 <= row < row_cnt (ext_attr t) -> 0 <= col < col_cnt (ext_attr t) ->
  read_slot (ext_attr t) (row * col_cnt (ext_attr t) + col) = Some (Some b) ->
  exists t' b',
    lv_table_set_cell_value env junk t row col txt = Some t' /\
    read_slot (ext_attr t') (row * col_cnt (ext_attr t') + col) = Some (Some b') /\
    idx b' 0 = idx b 0 /\
    lv_table_get_cell_align t' row col = lv_table_get_cell_align t row col /\
    lv_table_get_cell_merge_right t' row col =
      lv_table_get_cell_merge_right t row col.
Proof.
  intros Hok Hrow Hcol Hb.
  destruct (set_cell_value_spec env junk t row col txt Hok Hrow Hcol)
    as (p & format & t' & Hp & Hformat & Hset & Hok' & HR & HC & Hread).
  cbv zeta in *. rewrite Hb in Hp. injection Hp as <-.
  exists t', (format :: txt ++ [0]). split; [exact Hset|].
  rewrite HC. split; [exact Hread|]. split; [by rewrite Hformat|].
  unfold lv_table_get_cell_align, lv_table_get_cell_merge_right.
  rewrite HR, HC, valid_cell_guard by assumption.
  rewrite Hread, Hb. simpl. rewrite Hformat. simpl. split; reflexivity.
Qed.

Lemma set_cell_value_keeps_format_witness :
  exists t' b',
    lv_table_set_cell_value env0 0 table1 1 1 [88; 89] = Some t' /\
    read_slot (ext_attr t') (1 * col_cnt (ext_attr t') + 1) = Some (Some b') /\
    idx b' 0 = idx [2; 65; 66; 67; 0] 0 /\
    lv_table_get_cell_align t' 1 1 = lv_table_get_cell_align table1 1 1 /\
    lv_table_get_cell_merge_right t' 1 1 =
      lv_table_get_cell_merge_right table1 1 1.
Proof.
  apply (set_cell_value_keeps_format env0 0 table1 1 1 [88; 89] [2; 65; 66; 67; 0]).
  - reflexivity.
  - simpl. lia.
  - simpl. lia.
  - reflexivity.
Defined.

(** C8. Value round trip and value stability: on a valid cell,
    [lv_table_get_cell_value] after [lv_table_set_cell_value] returns the
    text that was set, and [lv_table_set_cell_align] and
    [lv_table_set_cell_merge_right] on that cell leave the text read back
    unchanged, on the table so obtained and on every well-formed table. *)
Theorem cell_value_round_trip env t row col :
  table_ok env t = true ->
  0 <= row < row_cnt (ext_attr t) -> 0 <= col < col_cnt (ext_attr t) ->
  (forall junk txt,
     Forall (fun c => c <> 0) txt ->
     exists t1,
       lv_table_set_cell_value env junk t row col txt = Some t1 /\
       lv_table_get_cell_value t1 row col = Some txt /\
       (forall junk1 align,
          exists t2, lv_table_set_cell_align junk1 t1 row col align = Some t2 /\
                     lv_table_get_cell_value t2 row col = Some txt) /\
       (forall junk1 en,
          exists t2,
            lv_table_set_cell_merge_right env junk1 t1 row col en = Some t2 /\
            lv_table_get_cell_value t2 row col = Some txt)) /\
  (forall junk align,
     exists t2, lv_table_set_cell_align junk t row col align = Some t2 /\
                table_ok env t2 = true /\
                lv_table_get_cell_value t2 row col =
                  lv_table_get_cell_value t row col) /\
  (forall junk en,
     exists t2, lv_table_set_cell_merge_right env junk t row col en = Some t2 /\
                table_ok env t2 = true /\
                lv_table_get_cell_value t2 row col =
                  lv_table_get_cell_value t row col).
Proof.
  assert (Halign : forall t junk align,
    table_ok env t = true ->
    0 <= row < row_cnt (ext_attr t) -> 0 <= col < col_cnt (ext_attr t) ->
    exists t2, lv_table_set_cell_align junk t row col align = Some t2 /\
               table_ok env t2 = true /\
               lv_table_get_cell_value t2 row col =
                 lv_table_get_cell_value t row col).
  { intros t0 junk align Hok Hrow Hcol.
    destruct (set_cell_align_spec env junk t0 row col align Hok Hrow Hcol)
      as (p & format & t2 & Hp & Hf & Hset & Hok2 & HR & HC & Hread).
    cbv zeta in *. exists t2. split; [exact Hset|]. split; [exact Hok2|].
    unfold lv_table_get_cell_value.
    rewrite HR, HC, valid_cell_guard by assumption.
    rewrite Hread, Hp. simpl. rewrite drop_1_set_format.
    destruct p; reflexivity. }
  assert (Hmerge : forall t junk en,
    table_ok env t = true ->
    0 <= row < row_cnt (ext_attr t) -> 0 <= col < col_cnt (ext_attr t) ->
    exists t2, lv_table_set_cell_merge_right env junk t row col en = Some t2 /\
               table_ok env t2 = true /\
               lv_table_get_cell_value t2 row col =
                 lv_table_get_cell_value t row col).
  { intros t0 junk en Hok Hrow Hcol.
    destruct (set_cell_merge_right_spec env junk t0 row col en Hok Hrow Hcol)
      as (p & format & t2 & Hp & Hf & Hset & Hok2 & HR & HC & Hread).
    cbv zeta in *. exists t2. split; [exact Hset|]. split; [exact Hok2|].
    unfold lv_table_get_cell_value.
    rewrite HR, HC, valid_cell_guard by assumption.
    rewrite Hread, Hp. simpl. rewrite drop_1_set_format.
    destruct p; reflexivity. }
  intros Hok Hrow Hcol. split; [|split; [eauto | eauto]].
  intros junk txt Htxt.
  destruct (set_cell_value_spec env junk t row col txt Hok Hrow Hcol)
    as (p & format & t1 & Hp & Hformat & Hset & Hok1 & HR & HC & Hread).
  cbv zeta in *. exists t1. split; [exact Hset|].
  assert (lv_table_get_cell_value t1 row col = Some txt) as Hget.
  { unfold lv_table_get_cell_value.
    rewrite HR, HC, valid_cell_guard by assumption. rewrite Hread. simpl.
    rewrite drop_0. by apply c_str_terminated. }
  split; [exact Hget|]. rewrite <- HR in Hrow. rewrite <- HC in Hcol. split.
  - intros junk1 align.
    destruct (Halign t1 junk1 align Hok1 Hrow Hcol) as (t2 & Hs & _ & Hg).
    exists t2. split; [exact Hs | by rewrite Hg].
  - intros junk1 en.
    destruct (Hmerge t1 junk1 en Hok1 Hrow Hcol) as (t2 & Hs & _ & Hg).
    exists t2. split; [exact Hs | by rewrite Hg].
Qed.

Lemma cell_value_round_trip_witness :
  table_ok env0 table1 = true /\
  Forall (fun c => c <> 0) [79; 75] /\
  exists t1,
    lv_table_set_cell_value env0 0 table1 0 2 [79; 75] = Some t1 /\
    lv_table_get_cell_value t1 0 2 = Some [79; 75] /\
    (forall junk align,
       exists t2, lv_table_set_cell_align junk t1 0 2 align = Some t2 /\
                  lv_table_get_cell_value t2 0 2 = Some [79; 75]).
Proof.
  assert (Forall (fun c => c <> 0) [79; 75]) as Htxt
    by (repeat constructor; discriminate).
  split; [reflexivity|]. split; [exact Htxt|].
  destruct (cell_value_round_trip env0 table1 0 2 eq_refl) as [Hround _];
    [simpl; lia | simpl; lia |].
  destruct (Hround 0 [79; 75] Htxt) as (t1 & Hset & Hget & Halign & _).
  exists t1. split; [exact Hset|]. split; [exact Hget | exact Halign].
Defined.

(** ** The size of the table *)



(** ** Layout and alignment *)

Lemma read_slot_same_but_align e1 e2 i :
  ext_same_but_align e1 e2 ->
  match read_slot e1 i, read_slot e2 i with
  | None, None => True
  | Some p, Some q => slot_same_but_align p q
  | _, _ => False
  end.
Proof.
  intros (_ & _ & _ & _ & Hcd). unfold read_slot, idx.
  destruct (cell_data e1) as [c1|], (cell_data e2) as [c2|]; simpl; try done.
  destruct (i <? 0); [done|].
  destruct (c1 !! Z.to_nat i) as [p|] eqn:Hp.
  - destruct (Forall2_lookup_l _ _ _ _ _ Hcd Hp) as (q & -> & Hpq). exact Hpq.
  - apply lookup_ge_None in Hp. rewrite (Forall2_length _ _ _ Hcd) in Hp.
    apply lookup_ge_None in Hp. by rewrite Hp.
Qed.

Lemma row_height_merge_same_but_align e1 e2 :
  ext_same_but_align e1 e2 ->
  forall fuel cell col col_merge w,
    row_height_merge fuel e1 cell col col_merge w =
    row_height_merge fuel e2 cell col col_merge w.
Proof.
  intros He. pose proof He as (_ & HC & _ & HW & _).
  induction fuel as [|n IH]; intros cell col cm w; simpl; rewrite HC.
  - reflexivity.
  - destruct (cm + col <? col_cnt e2 - 1); [|reflexivity].
    pose proof (read_slot_same_but_align e1 e2 (cell + cm) He) as Hs.
    destruct (read_slot e1 (cell + cm)) as [p|], (read_slot e2 (cell + cm)) as [q|];
      try done. simpl.
    destruct p as [b1|], q as [b2|]; try done. destruct Hs as [_ Hf].
    destruct (idx b1 0) as [f1|], (idx b2 0) as [f2|]; try done. simpl in *.
    injection Hf as ->. destruct (format_right_merge f2); [|reflexivity].
    rewrite HW. destruct (idx (col_w e2) (col + cm + 1)); simpl; [apply IH | done].
Qed.

Lemma row_height_cells_same_but_align env e1 e2 :
  ext_same_but_align e1 e2 ->
  forall fuel row_start cell col h,
    row_height_cells fuel env e1 row_start cell col h =
    row_height_cells fuel env e2 row_start cell col h.
Proof.
  intros He. pose proof He as (_ & HC & HS & HW & _).
  induction fuel as [|n IH]; intros row_start cell col h; simpl; rewrite HC.
  - reflexivity.
  - destruct (cell <? row_start + col_cnt e2); [|reflexivity].
    pose proof (read_slot_same_but_align e1 e2 cell He) as Hs.
    destruct (read_slot e1 cell) as [p|], (read_slot e2 cell) as [q|];
      try done. simpl.
    destruct p as [b1|], q as [b2|]; try done.
    destruct Hs as [Htxt _]. rewrite HW, Htxt.
    destruct (idx (col_w e2) col) as [c|]; [|reflexivity]. simpl.
    unfold col_fuel. rewrite HC.
    rewrite (row_height_merge_same_but_align e1 e2 He).
    destruct (row_height_merge _ e2 cell col 0 c) as [[m w]|]; [|reflexivity].
    simpl. destruct (c_str (drop 1 b2)) as [txt|]; [|reflexivity]. simpl.
    rewrite HS, IH. reflexivity.
Qed.

Lemma get_row_height_log_same_but_align env t1 t2 r :
  same_but_align t1 t2 ->
  get_row_height_log env t1 r = get_row_height_log env t2 r.
Proof.
  intros [_ He]. pose proof He as (_ & HC & HS & _).
  unfold get_row_height_log, col_fuel.
  rewrite (row_height_cells_same_but_align env _ _ He), HC, HS. reflexivity.
Qed.

Lemma sum_loop_ext f g ixs :
  (forall i, f i = g i) -> forall acc, sum_loop f ixs acc = sum_loop g ixs acc.
Proof.
  intros Hfg. induction ixs as [|i ixs IH]; intros acc; simpl; [reflexivity|].
  rewrite Hfg. destruct (g i); simpl; [apply IH | reflexivity].
Qed.

(** C10. Layout is independent of alignment: two tables that are identical
    except for the alignment bits of their cells have the same height for
    every row, measured by the same calls of the text primitive, and the
    same recomputed size, which exists when one of them is well-formed. *)
Theorem layout_independent_of_alignment env t1 t2 :
  same_but_align t1 t2 ->
  (forall r, get_row_height env t1 r = get_row_height env t2 r) /\
  (forall r, get_row_height_log env t1 r = get_row_height_log env t2 r) /\
  obj_size <$> refr_size env t1 = obj_size <$> refr_size env t2 /\
  (table_ok env t1 = true ->
   exists s, obj_size <$> refr_size env t1 = Some s /\
             obj_size <$> refr_size env t2 = Some s).
Proof.
  intros Hsame.
  assert (forall r, get_row_height env t1 r = get_row_height env t2 r) as Hrow.
  { intros r. unfold get_row_height.
    by rewrite (get_row_height_log_same_but_align env t1 t2 r Hsame). }
  assert (obj_size <$> refr_size env t1 = obj_size <$> refr_size env t2) as Hsize.
  { destruct Hsame as [Hst (HR & HC & _ & HW & _)]. unfold refr_size.
    rewrite HW, HC, HR, (sum_loop_ext _ _ _ Hrow).
    destruct (sum_loop _ (seqZ 0 (col_cnt _)) 0); [|reflexivity]. simpl.
    destruct (sum_loop _ (seqZ 0 (row_cnt _)) 0); [|reflexivity]. simpl.
    by rewrite Hst. }
  split; [exact Hrow|]. split; [|split; [exact Hsize|]].
  - intros r. by apply get_row_height_log_same_but_align.
  - intros Hok. destruct (refr_size_total env t1 Hok) as (t' & Hr & _).
    exists (obj_size t'). rewrite <- Hsize, Hr. split; reflexivity.
Qed.

Lemma layout_independent_of_alignment_witness :
  same_but_align table1 table1_realigned /\
  (forall r, get_row_height env0 table1 r = get_row_height env0 table1_realigned r) /\
  obj_size <$> refr_size env0 table1 = obj_size <$> refr_size env0 table1_realigned.
Proof.
  assert (same_but_align table1 table1_realigned) as Hsame.
  { split; [reflexivity|]. repeat split; simpl.
    repeat constructor. }
  split; [exact Hsame|].
  destruct (layout_independent_of_alignment env0 table1 table1_realigned Hsame)
    as (H1 & _ & H2 & _).
  split; [exact H1 | exact H2].
Defined.

(** ** The store-size invariant *)

Lemma length_lv_mem_realloc_cells junk old n :
  length (lv_mem_realloc_cells junk old n) = Z.to_nat n.
Proof.
  unfold lv_mem_realloc_cells.
  rewrite length_app, length_take, length_fmap, length_seq. lia.
Qed.

(** The slots [lv_mem_realloc] adds are not initialised: they hold what the
    allocator's memory held. *)
Lemma lv_mem_realloc_cells_new junk old n (i : nat) :
  (length (default [] old) <= i < Z.to_nat n)%nat ->
  lv_mem_realloc_cells junk old n !! i = Some (junk i).
Proof.
  intros Hi. unfold lv_mem_realloc_cells.
  rewrite lookup_app_r by (rewrite length_take; lia).
  rewrite length_take, list_lookup_fmap.
  rewrite lookup_seq_lt by lia. simpl. f_equal. f_equal. lia.
Qed.

Lemma lv_mem_realloc_cells_old junk old n (i : nat) :
  (i < Z.to_nat n)%nat -> (i < length (default [] old))%nat ->
  lv_mem_realloc_cells junk old n !! i = default [] old !! i.
Proof.
  intros Hn Hi. unfold lv_mem_realloc_cells.
  rewrite lookup_app_l by (rewrite length_take; lia).
  by apply lookup_take_lt.
Qed.

Lemma store_inv_resize junk e :
  0 <= row_cnt e -> 0 <= col_cnt e -> store_inv (resize_cell_data junk e).
Proof.
  intros HR HC. unfold resize_cell_data, store_inv.
  destruct (Z.gtb_spec (row_cnt e) 0), (Z.gtb_spec (col_cnt e) 0); simpl;
    (split; [intros Hpos | intros Hzero]); try nia; try reflexivity.
  eexists. split; [reflexivity|]. rewrite length_lv_mem_realloc_cells. nia.
Qed.

(** The operations other than the copy constructor establish or keep the
    store-size invariant. *)
Lemma store_inv_create env new_table t :
  lv_table_create env new_table None = Some t -> store_inv (ext_attr t).
Proof.
  unfold lv_table_create, lv_table_set_style. intros H%refr_size_ext.
  rewrite H. simpl. split; [simpl; lia | reflexivity].
Qed.

Lemma store_inv_set_row_cnt env junk t n t' :
  0 <= n -> 0 <= col_cnt (ext_attr t) ->
  lv_table_set_row_cnt env junk t n = Some t' -> store_inv (ext_attr t').
Proof.
  intros Hn HC H%refr_size_ext. rewrite H. simpl. by apply store_inv_resize.
Qed.

Lemma store_inv_set_col_cnt env junk t n t' :
  0 <= n -> 0 <= row_cnt (ext_attr t) -> store_inv (ext_attr t) ->
  lv_table_set_col_cnt env junk t n = Some t' -> store_inv (ext_attr t').
Proof.
  intros Hn HR Hinv. unfold lv_table_set_col_cnt.
  destruct (n >=? LV_TABLE_COL_MAX env); [by intros [= <-]|].
  intros H%refr_size_ext. rewrite H. simpl. by apply store_inv_resize.
Qed.

Lemma store_inv_write_slot e i p e' :
  store_inv e -> write_slot e i p = Some e' -> store_inv e'.
Proof.
  unfold write_slot, store_inv. intros [H1 H2] H.
  destruct (cell_data e) as [cells|] eqn:Hcd; [|discriminate]. simpl in H.
  destruct (idx cells i) as [q|] eqn:Hq; [|discriminate]. simpl in H.
  injection H as <-. simpl. split.
  - intros Hpos. destruct (H1 Hpos) as (c & [= <-] & Hlen).
    eexists. split; [reflexivity|]. by rewrite length_insert.
  - intros Hz. by apply H2 in Hz.
Qed.

Lemma store_inv_set_cell_value env junk t row col txt t' :
  store_inv (ext_attr t) ->
  lv_table_set_cell_value env junk t row col txt = Some t' ->
  store_inv (ext_attr t').
Proof.
  intros Hinv. unfold lv_table_set_cell_value.
  destruct (_ || _); [by intros [= <-]|].
  destruct (read_slot _ _) as [p|]; [|discriminate]. simpl.
  destruct (match p with Some b => idx b 0 | None => _ end); [|discriminate].
  simpl. destruct (write_slot _ _ _) as [e'|] eqn:Hw; [|discriminate]. simpl.
  intros H%refr_size_ext. rewrite H. simpl. by eapply store_inv_write_slot.
Qed.

Lemma store_inv_set_cell_align junk t row col align t' :
  store_inv (ext_attr t) ->
  lv_table_set_cell_align junk t row col align = Some t' ->
  store_inv (ext_attr t').
Proof.
  intros Hinv. unfold lv_table_set_cell_align.
  destruct (_ || _); [by intros [= <-]|].
  destruct (read_slot _ _) as [p|]; [|discriminate]. simpl.
  destruct (idx (ensure_slot junk p) 0); [|discriminate]. simpl.
  destruct (write_slot _ _ _) as [e'|] eqn:Hw; [|discriminate]. simpl.
  intros [= <-]. simpl. by eapply store_inv_write_slot.
Qed.

Lemma store_inv_set_cell_merge_right env junk t row col en t' :
  store_inv (ext_attr t) ->
  lv_table_set_cell_merge_right env junk t row col en = Some t' ->
  store_inv (ext_attr t').
Proof.
  intros Hinv. unfold lv_table_set_cell_merge_right.
  destruct (_ || _); [by intros [= <-]|].
  destruct (read_slot _ _) as [p|]; [|discriminate]. simpl.
  destruct (idx (ensure_slot junk p) 0); [|discriminate]. simpl.
  destruct (write_slot _ _ _) as [e'|] eqn:Hw; [|discriminate]. simpl.
  intros H%refr_size_ext. rewrite H. simpl. by eapply store_inv_write_slot.
Qed.

(** C1. Store-size invariant: the copy constructor breaks it. A table
    copy-constructed from a table with [R*C > 0] has the counts of its
    source and no cell-data array, so that the invariant fails and reading
    any of its cells is undefined. *)
Theorem copy_create_breaks_store_inv env new_table copy :
  row_cnt (ext_attr copy) * col_cnt (ext_attr copy) > 0 ->
  exists t,
    lv_table_create env new_table (Some copy) = Some t /\
    row_cnt (ext_attr t) = row_cnt (ext_attr copy) /\
    col_cnt (ext_attr t) = col_cnt (ext_attr copy) /\
    cell_data (ext_attr t) = None /\
    ~ store_inv (ext_attr t) /\
    (forall row col,
       0 <= row < row_cnt (ext_attr t) -> 0 <= col < col_cnt (ext_attr t) ->
       lv_table_get_cell_value t row col = None).
Proof.
  intros Hpos. eexists. split; [reflexivity|]. simpl.
  split; [reflexivity|]. split; [reflexivity|]. split; [reflexivity|]. split.
  - intros [H _]. destruct (H Hpos) as (cells & Hc & _). discriminate.
  - intros row col Hrow Hcol. unfold lv_table_get_cell_value. simpl.
    pose proof (valid_cell_guard (ext_attr copy) row col Hrow Hcol) as Hg.
    rewrite Hg. reflexivity.
Qed.

Lemma copy_create_breaks_store_inv_witness :
  store_inv (ext_attr table1) /\
  row_cnt (ext_attr table1) * col_cnt (ext_attr table1) > 0 /\
  exists t,
    lv_table_create env0 obj0 (Some table1) = Some t /\
    row_cnt (ext_attr t) = 2 /\ col_cnt (ext_attr t) = 3 /\
    cell_data (ext_attr t) = None /\
    ~ store_inv (ext_attr t) /\
    lv_table_get_cell_value t 0 0 = None.
Proof.
  split; [apply store_ok_inv; reflexivity|]. split; [reflexivity|].
  destruct (copy_create_breaks_store_inv env0 obj0 table1) as
    (t & H1 & H2 & H3 & H4 & H5 & H6); [reflexivity|].
  exists t. split; [exact H1|]. split; [exact H2|]. split; [exact H3|].
  split; [exact H4|]. split; [exact H5|].
  apply H6; rewrite ?H2, ?H3; simpl; lia.
Defined.

(** ** Well-formed tables are those the operations build *)

(** [table1] is what the public operations build on an allocator that
    hands out zeroed memory. *)
Example table1_built :
  (t ← lv_table_create env0 obj0 None;
   t ← lv_table_set_col_cnt env0 zeroed t 3;
   t ← lv_table_set_row_cnt env0 zeroed t 2;
   t ← lv_table_set_cell_value env0 0 t 0 0 [72; 105];
   t ← lv_table_set_cell_merge_right env0 0 t 0 0 true;
   t ← lv_table_set_cell_merge_right env0 0 t 0 1 true;
   t ← lv_table_set_cell_align 0 t 1 1 LV_LABEL_ALIGN_RIGHT;
   lv_table_set_cell_value env0 0 t 1 1 [65; 66; 67]) = Some table1.
Proof. vm_compute. reflexivity. Qed.

Lemma forallb_slot_ok_realloc_zeroed old n :
  (forall cells, old = Some cells -> Forall (fun p => slot_ok p = true) cells) ->
  forallb slot_ok (lv_mem_realloc_cells zeroed old n) = true.
Proof.
  intros Hold. apply List.forallb_forall. intros p Hp%list_elem_of_In.
  unfold lv_mem_realloc_cells in Hp. apply elem_of_app in Hp as [Hp|Hp].
  - destruct old as [cells|]; simpl in Hp.
    + apply elem_of_take in Hp as (i & Hi & _).
      apply list_elem_of_lookup_2 in Hi.
      eapply (proj1 (List.Forall_forall _ _) (Hold cells eq_refl)).
      by apply list_elem_of_In.
    + rewrite take_nil in Hp. by apply elem_of_nil in Hp.
  - apply list_elem_of_fmap in Hp as (i & -> & _). reflexivity.
Qed.

(** On an allocator that hands out zeroed memory the two resizers keep a
    table well-formed, as long as the new grid has fewer than [2^16]
    cells. *)
Lemma table_ok_resize_zeroed env t e :
  0 <= row_cnt e -> 0 <= col_cnt e < LV_TABLE_COL_MAX env ->
  Z.of_nat (length (col_w e)) = LV_TABLE_COL_MAX env ->
  row_cnt e * col_cnt e < 65536 ->
  (forall cells, cell_data e = Some cells ->
                 Forall (fun p => slot_ok p = true) cells) ->
  table_ok env (with_ext t (resize_cell_data zeroed e)) = true.
Proof.
  intros HR HC HW H16 Hslots. unfold table_ok, resize_cell_data.
  destruct (Z.gtb_spec (row_cnt e) 0), (Z.gtb_spec (col_cnt e) 0); simpl;
    rewrite !andb_true_iff, !Z.leb_le, !Z.ltb_lt, Z.eqb_eq;
    (split; [repeat split; lia|]); unfold store_ok; simpl;
    try (apply Z.eqb_eq; nia).
  rewrite !andb_true_iff, Z.ltb_lt, Z.eqb_eq, length_lv_mem_realloc_cells.
  split; [split; nia|]. by apply forallb_slot_ok_realloc_zeroed.
Qed.

Lemma table_ok_slots env t cells :
  table_ok env t = true -> cell_data (ext_attr t) = Some cells ->
  Forall (fun p => slot_ok p = true) cells.
Proof.
  intros Hok Hcd. destruct (table_ok_spec _ _ Hok) as (_ & _ & _ & _ & Hst).
  by destruct (store_ok_cells _ _ Hst Hcd) as (_ & _ & ?).
Qed.

Lemma set_row_cnt_zeroed_ok env t n :
  table_ok env t = true ->
  0 <= n -> n * col_cnt (ext_attr t) < 65536 ->
  exists t', lv_table_set_row_cnt env zeroed t n = Some t' /\
             table_ok env t' = true /\ row_cnt (ext_attr t') = n /\
             col_cnt (ext_attr t') = col_cnt (ext_attr t).
Proof.
  intros Hok Hn H16.
  destruct (table_ok_spec _ _ Hok) as (HR & HC & HW & _ & _).
  pose proof (table_ok_resize_zeroed env t (with_row_cnt (ext_attr t) n)
                Hn HC HW H16 (fun cells => table_ok_slots env t cells Hok)) as Hok'.
  destruct (refr_size_total env _ Hok') as (t' & Hr & Hext & Hok'').
  exists t'. split; [exact Hr|]. split; [exact Hok''|]. rewrite Hext.
  unfold resize_cell_data. simpl. by destruct (_ && _).
Qed.

Lemma set_col_cnt_zeroed_ok env t n :
  table_ok env t = true ->
  0 <= n < LV_TABLE_COL_MAX env -> row_cnt (ext_attr t) * n < 65536 ->
  exists t', lv_table_set_col_cnt env zeroed t n = Some t' /\
             table_ok env t' = true /\ col_cnt (ext_attr t') = n /\
             row_cnt (ext_attr t') = row_cnt (ext_attr t).
Proof.
  intros Hok Hn H16.
  destruct (table_ok_spec _ _ Hok) as (HR & HC & HW & _ & _).
  pose proof (table_ok_resize_zeroed env t (with_col_cnt (ext_attr t) n)
                HR Hn HW H16 (fun cells => table_ok_slots env t cells Hok)) as Hok'.
  destruct (refr_size_total env _ Hok') as (t' & Hr & Hext & Hok'').
  exists t'. unfold lv_table_set_col_cnt.
  destruct (Z.geb_spec n (LV_TABLE_COL_MAX env)); [lia|].
  split; [exact Hr|]. split; [exact Hok''|]. rewrite Hext.
  unfold resize_cell_data. simpl. by destruct (_ && _).
Qed.

(** Resizing to no row or to no column frees the store. *)
Lemma resize_to_zero_frees junk e :
  row_cnt e = 0 \/ col_cnt e = 0 -> cell_data (resize_cell_data junk e) = None.
Proof.
  intros H. unfold resize_cell_data.
  destruct (Z.gtb_spec (row_cnt e) 0), (Z.gtb_spec (col_cnt e) 0); simpl;
    try reflexivity; lia.
Qed.

(** ** The 16-bit cell counter *)

(** On a row that reaches past the range of the 16-bit cell counter the
    cell loop of [get_row_height] has no way out: the counter wraps before
    it reaches the end of the row. *)
Lemma row_height_cells_wraps env e row_start :
  65536 <= row_start + col_cnt e ->
  forall fuel cell col h,
    cell < 65536 -> row_height_cells fuel env e row_start cell col h = None.
Proof.
  intros Hrow.
  assert (forall z, wrap16 z < 65536) as Hwrap
    by (intros z; unfold wrap16; apply Z.mod_pos_bound; lia).
  induction fuel as [|n IH]; intros cell col h Hcell; simpl;
    destruct (Z.ltb_spec cell (row_start + col_cnt e)); try lia;
    [reflexivity|].
  destruct (read_slot e cell) as [[b|]|]; simpl; [|by apply IH|reflexivity].
  destruct (idx (col_w e) col); simpl; [|reflexivity].
  destruct (row_height_merge _ _ _ _ _ _) as [[m w]|]; simpl; [|reflexivity].
  destruct (c_str (drop 1 b)); simpl; [|reflexivity].
  rewrite IH by apply Hwrap. reflexivity.
Qed.

Lemma sum_loop_None f ixs i :
  i ∈ ixs -> f i = None -> forall acc, sum_loop f ixs acc = None.
Proof.
  intros Hi Hf. induction ixs as [|j ixs IH]; intros acc.
  - by apply elem_of_nil in Hi.
  - simpl. apply elem_of_cons in Hi as [<- | Hi]; [by rewrite Hf|].
    destruct (f j); simpl; [by apply IH | reflexivity].
Qed.

(** [refr_size] does not return on a grid of [2^16] cells or more: none of
    the operations that resize a table hands back such a table. *)
Lemma refr_size_needs_16_bit_cells env t :
  0 < col_cnt (ext_attr t) ->
  65536 <= row_cnt (ext_attr t) * col_cnt (ext_attr t) ->
  refr_size env t = None.
Proof.
  intros HC Hcells.
  set (C := col_cnt (ext_attr t)) in *. set (R := row_cnt (ext_attr t)) in *.
  set (r := 65535 / C).
  assert (0 <= r) as Hr0 by (apply Z.div_pos; lia).
  assert (r * C <= 65535 < r * C + C) as Hr.
  { pose proof (Z.div_mod 65535 C ltac:(lia)) as Hdm.
    pose proof (Z.mod_pos_bound 65535 C HC) as Hmod. fold r in Hdm. lia. }
  assert (r < R) as HrR by nia.
  assert (get_row_height env t r = None) as Hnone.
  { unfold get_row_height, get_row_height_log. fold C.
    rewrite wrap16_small by lia.
    rewrite (row_height_cells_wraps env (ext_attr t) (r * C)) by (fold C; lia).
    reflexivity. }
  unfold refr_size. destruct (sum_loop _ (seqZ 0 (col_cnt _)) 0); [|reflexivity].
  simpl. fold R. rewrite (sum_loop_None _ _ r); [reflexivity | | exact Hnone].
  apply elem_of_seqZ. lia.
Qed.

Lemma set_row_cnt_cells_16 env junk t n t' :
  0 <= n -> lv_table_set_row_cnt env junk t n = Some t' ->
  row_cnt (ext_attr t') * col_cnt (ext_attr t') < 65536.
Proof.
  intros Hn Hset. pose proof Hset as Hext%refr_size_ext.
  unfold lv_table_set_row_cnt in Hset.
  destruct (Z_lt_le_dec (row_cnt (ext_attr t') * col_cnt (ext_attr t')) 65536)
    as [|Hbig]; [assumption|].
  rewrite Hext in Hbig.
  rewrite refr_size_needs_16_bit_cells in Hset; [discriminate | |].
  - unfold resize_cell_data in *. destruct (_ && _); simpl in *; nia.
  - unfold resize_cell_data in *. destruct (_ && _); simpl in *; lia.
Qed.

Lemma set_col_cnt_cells_16 env junk t n t' :
  0 <= row_cnt (ext_attr t) -> n < LV_TABLE_COL_MAX env ->
  lv_table_set_col_cnt env junk t n = Some t' ->
  row_cnt (ext_attr t') * col_cnt (ext_attr t') < 65536.
Proof.
  intros HR Hn. unfold lv_table_set_col_cnt.
  destruct (Z.geb_spec n (LV_TABLE_COL_MAX env)); [lia|]. intros Hset.
  pose proof Hset as Hext%refr_size_ext.
  destruct (Z_lt_le_dec (row_cnt (ext_attr t') * col_cnt (ext_attr t')) 65536)
    as [|Hbig]; [assumption|].
  rewrite Hext in Hbig.
  rewrite refr_size_needs_16_bit_cells in Hset; [discriminate | |].
  - unfold resize_cell_data in *. destruct (_ && _); simpl in *; nia.
  - unfold resize_cell_data in *. destruct (_ && _); simpl in *; lia.
Qed.

(** ** Slots created without content *)

(** A slot created by [lv_table_set_cell_align] or
    [lv_table_set_cell_merge_right] has the empty text, and the field of the
    format byte that the call does not set is the one of the block the
    allocator returned. *)
Lemma lazy_slot_format env junk t row col :
  table_ok env t = true ->
  0 <= row < row_cnt (ext_attr t) -> 0 <= col < col_cnt (ext_attr t) ->
  read_slot (ext_attr t) (row * col_cnt (ext_attr t) + col) = Some None ->
  (forall align,
     exists t', lv_table_set_cell_align junk t row col align = Some t' /\
                lv_table_get_cell_value t' row col = Some [] /\
                lv_table_get_cell_align t' row col = Some (Z.land align 3) /\
                lv_table_get_cell_merge_right t' row col
                  = Some (format_right_merge junk)) /\
  (forall en,
     exists t', lv_table_set_cell_merge_right env junk t row col en = Some t' /\
                lv_table_get_cell_value t' row col = Some [] /\
                lv_table_get_cell_merge_right t' row col = Some en /\
                lv_table_get_cell_align t' row col = Some (format_align junk)).
Proof.
  intros Hok Hrow Hcol Hempty. split.
  - intros align.
    destruct (set_cell_align_spec env junk t row col align Hok Hrow Hcol)
      as (p & format & t' & Hp & Hf & Hset & _ & HR & HC & Hread).
    cbv zeta in *. rewrite Hempty in Hp. injection Hp as <-.
    simpl in Hf. injection Hf as <-. simpl in Hread.
    exists t'. split; [exact Hset|].
    unfold lv_table_get_cell_value, lv_table_get_cell_align,
      lv_table_get_cell_merge_right.
    rewrite HR, HC, valid_cell_guard by assumption. rewrite Hread. simpl.
    rewrite format_align_set_align, format_right_merge_set_align.
    destruct (format_right_merge junk); repeat split.
  - intros en.
    destruct (set_cell_merge_right_spec env junk t row col en Hok Hrow Hcol)
      as (p & format & t' & Hp & Hf & Hset & _ & HR & HC & Hread).
    cbv zeta in *. rewrite Hempty in Hp. injection Hp as <-.
    simpl in Hf. injection Hf as <-. simpl in Hread.
    exists t'. split; [exact Hset|].
    unfold lv_table_get_cell_value, lv_table_get_cell_align,
      lv_table_get_cell_merge_right.
    rewrite HR, HC, valid_cell_guard by assumption. rewrite Hread. simpl.
    rewrite format_align_set_right_merge, format_right_merge_set_right_merge.
    destruct en; repeat split.
Qed.

(** C2. Format-byte defaults on lazy creation: they are not established.
    On the empty cell (0,2) of [table1], with an allocator whose block
    starts with the byte 6, setting the alignment to left creates a slot
    whose right-merge flag reads true, and clearing the right-merge flag
    creates a slot whose alignment reads right. *)
Theorem lazy_slot_format_not_default :
  table_ok env0 table1 = true /\
  lv_table_get_cell_value table1 0 2 = Some [] /\
  read_slot (ext_attr table1) (0 * col_cnt (ext_attr table1) + 2) = Some None /\
  (exists t',
     lv_table_set_cell_align 6 table1 0 2 LV_LABEL_ALIGN_LEFT = Some t' /\
     lv_table_get_cell_value t' 0 2 = Some [] /\
     lv_table_get_cell_align t' 0 2 = Some LV_LABEL_ALIGN_LEFT /\
     lv_table_get_cell_merge_right t' 0 2 = Some true) /\
  (exists t',
     lv_table_set_cell_merge_right env0 6 table1 0 2 false = Some t' /\
     lv_table_get_cell_value t' 0 2 = Some [] /\
     lv_table_get_cell_merge_right t' 0 2 = Some false /\
     lv_table_get_cell_align t' 0 2 = Some LV_LABEL_ALIGN_RIGHT).
Proof.
  assert (table_ok env0 table1 = true) as Hok by reflexivity.
  assert (read_slot (ext_attr table1) (0 * col_cnt (ext_attr table1) + 2)
          = Some None) as Hempty by reflexivity.
  destruct (lazy_slot_format env0 6 table1 0 2 Hok) as [Ha Hm];
    [simpl; lia | simpl; lia | exact Hempty |].
  split; [exact Hok|]. split; [reflexivity|]. split; [exact Hempty|]. split.
  - destruct (Ha LV_LABEL_ALIGN_LEFT) as (t' & H1 & H2 & H3 & H4). eauto.
  - destruct (Hm false) as (t' & H1 & H2 & H3 & H4). eauto 6.
Qed.

(** ** Growing the store *)

(** C3. Resize freshness: it is not established. With an allocator whose
    memory still holds the pointer of the old slot, resizing the 1x1 table
    [table_A] to no row frees the store, and resizing it back to one row
    yields a grid whose cell reads the old text; growing [table_A] to two
    rows yields a new slot that is not empty. *)
Theorem resize_slots_not_fresh :
  table_ok env0 table_A = true /\
  (exists t1 t2,
     lv_table_set_row_cnt env0 stale table_A 0 = Some t1 /\
     cell_data (ext_attr t1) = None /\
     lv_table_set_row_cnt env0 stale t1 1 = Some t2 /\
     lv_table_get_cell_value t2 0 0 = Some [65]) /\
  (exists t3,
     lv_table_set_row_cnt env0 stale table_A 2 = Some t3 /\
     read_slot (ext_attr t3) 1 = Some (Some [0; 65; 0]) /\
     lv_table_get_cell_value t3 1 0 = Some [65]).
Proof.
  split; [reflexivity|]. split.
  - eexists _, _. split; [vm_compute; reflexivity|]. split; [reflexivity|].
    split; [vm_compute; reflexivity | reflexivity].
  - eexists. split; [vm_compute; reflexivity|]. split; reflexivity.
Qed.

(** ** The renderer in step with the layout engine *)

Lemma design_cols_done e row col cell x ya yb flags fuel :
  col_cnt e <= col ->
  design_cols fuel e row col cell x ya yb flags = Some (cell, flags, []).
Proof.
  intros Hcol. destruct fuel; simpl; destruct (Z.ltb_spec col (col_cnt e));
    try lia; reflexivity.
Qed.

Lemma rect_label_spans_rect row col a calls :
  no_label_head calls ->
  rect_label_spans (DrawRect row col a :: calls) = rect_label_spans calls.
Proof. destruct calls as [|[] ?]; simpl; intros; try reflexivity. contradiction. Qed.

Lemma rect_label_spans_rect_label row col a row' col' ta txt fl calls :
  rect_label_spans (DrawRect row col a :: DrawLabel row' col' ta txt fl :: calls)
  = (col, txt, x2 a - x1 a) :: rect_label_spans calls.
Proof. reflexivity. Qed.

Section row_design.
Context (env : lv_env) (e : lv_table_ext_t) (cells : list cell_ptr).
Context (row_start row : Z) (ya yb : lv_coord_t).
Hypothesis Hcd : cell_data e = Some cells.
Hypothesis Hslots : Forall (fun p => slot_ok p = true) cells.
Hypothesis Hcolw : col_cnt e <= Z.of_nat (length (col_w e)).
Hypothesis Hrow0 : 0 <= row_start.
Hypothesis Hrow : row_start + col_cnt e <= Z.of_nat (length cells).
Hypothesis H16 : row_start + col_cnt e < 65536.

(** One iteration of the column loop of the renderer: the rectangle spans
    the merged width, the label follows when the slot has content, and the
    loop resumes behind the columns absorbed. *)
Lemma design_cols_step n col x flags p c m w :
  0 <= col < col_cnt e ->
  read_slot e (row_start + col) = Some p ->
  idx (col_w e) col = Some c ->
  row_height_merge (col_fuel e) e (row_start + col) col 0 c = Some (m, w) ->
  0 <= m -> col + m <= col_cnt e - 1 ->
  design_cols (S n) e row col (row_start + col) x ya yb flags =
  '(flags1, label) ← design_label e row col x ya (x + w) yb p flags;
  '(cell', flags', calls) ←
    design_cols n e row (col + m + 1) (row_start + (col + m + 1)) (x + w)
      ya yb flags1;
  Some (cell', flags',
        DrawRect row col {| x1 := x; y1 := ya; x2 := x + w; y2 := yb |}
          :: label ++ calls).
Proof.
  clear Hcd Hslots Hcolw Hrow cells.
  intros Hcol Hp Hc Hmerge Hm Hle. simpl.
  destruct (Z.ltb_spec col (col_cnt e)); [|lia].
  rewrite Hc. simpl. rewrite design_merge_row_height_merge, Hmerge. simpl.
  rewrite Hp. simpl.
  rewrite !(wrap16_small (col + m)) by lia.
  rewrite !wrap16_small by lia.
  replace (row_start + col + m + 1) with (row_start + (col + m + 1)) by lia.
  unfold design_label. destruct p as [b|]; simpl; [|reflexivity].
  destruct (idx b 0); simpl; [|reflexivity].
  destruct (c_str (drop 1 b)); reflexivity.
Qed.

(** On a well-formed row the two column loops terminate and run in step:
    the renderer ends on the first slot of the next row, draws only cells
    of its row, and the cells it draws with a text are, with the same
    merged widths, the cells the layout engine measures. *)
Lemma design_cols_spec fuel :
  forall col x flags h,
    0 <= col <= col_cnt e ->
    (Z.to_nat (col_cnt e - col) <= fuel)%nat ->
    exists h' log flags' calls,
      row_height_cells fuel env e row_start (row_start + col) col h
        = Some (h', log) /\
      design_cols fuel e row col (row_start + col) x ya yb flags
        = Some (row_start + col_cnt e, flags', calls) /\
      measured_spans (body_padding_hor (cell_style e)) log
        = rect_label_spans calls /\
      no_label_head calls /\
      Forall (fun c => call_row c = row /\ col <= call_col c < col_cnt e) calls.
Proof.
  induction fuel as [|n IH]; intros col x flags h Hcol Hfuel.
  - exists h, [], flags, []. rewrite row_height_cells_done by lia.
    rewrite design_cols_done by lia.
    replace col with (col_cnt e) at 1 by lia. repeat split. constructor.
  - destruct (Z.eq_dec col (col_cnt e)) as [Heq|Hne].
    { exists h, [], flags, []. rewrite row_height_cells_done by lia.
      rewrite design_cols_done by lia. rewrite Heq at 1.
      repeat split. constructor. }
    destruct (read_slot_row e cells row_start Hcd Hslots Hrow0 Hrow col)
      as (p & Hp & Hok); [lia|].
    destruct (idx_is_Some (col_w e) col) as [c Hc]; [lia|].
    destruct (row_height_merge_spec e cells row_start Hcd Hslots Hcolw Hrow0
                Hrow H16 (col_fuel e) col ltac:(lia) 0 c)
      as (m & w & Hmerge & Hm0 & Hm1 & Hchain & _ & Hw);
      [lia | lia | unfold col_fuel; lia |].
    rewrite (design_cols_step n col x flags p c m w) by (assumption || lia).
    destruct p as [b|].
    + destruct (slot_ok_format b Hok) as (f & txt & Hf & Htxt).
      rewrite (row_height_cells_content env e row_start Hrow0 H16 n col h b c m w txt)
        by (assumption || lia).
      unfold design_label. rewrite Hf, Htxt. simpl.
      destruct (IH (col + m + 1) (x + w) (align_txt_flags f flags)
                   (LV_MATH_MAX
                      (snd (lv_txt_get_size env txt (text_font (cell_style e))
                              (text_letter_space (cell_style e))
                              (text_line_space (cell_style e))
                              (w - 2 * body_padding_hor (cell_style e))
                              LV_TXT_FLAG_NONE)) h))
        as (h' & log & flags' & calls & Hr & Hd & Hspans & Hhead & Hall);
        [lia | lia |].
      rewrite Hr, Hd. simpl. eexists _, _, _, _.
      split; [reflexivity|]. split; [reflexivity|]. split; [|split; [exact I|]].
      * change (measured_spans ?p (?c0 :: ?l)) with
          ((m_col c0, m_txt c0, m_width c0 + 2 * p) :: measured_spans p l).
        rewrite Hspans. simpl app. rewrite rect_label_spans_rect_label.
        simpl. f_equal. f_equal. lia.
      * constructor; [simpl; lia|]. constructor; [simpl; lia|].
        eapply Forall_impl; [exact Hall|]. simpl. intros c0 [? ?]. lia.
    + assert (m = 0) as ->.
      { destruct (Z.eq_dec m 0) as [|Hm]; [assumption|].
        assert (right_merge_at e (row_start + col + 0) = true) as Hflag
            by (apply Hchain; lia).
        unfold right_merge_at in Hflag. rewrite Z.add_0_r, Hp in Hflag.
        discriminate. }
      rewrite (row_height_cells_empty env e row_start Hrow0 H16 n col h)
        by (assumption || lia).
      unfold design_label. simpl.
      destruct (IH (col + 1) (x + w) flags h)
        as (h' & log & flags' & calls & Hr & Hd & Hspans & Hhead & Hall);
        [lia | lia |].
      replace (col + 0 + 1) with (col + 1) by lia.
      rewrite Hr, Hd. simpl. eexists _, _, _, _.
      split; [reflexivity|]. split; [reflexivity|]. split; [|split; [exact I|]].
      * rewrite Hspans. symmetry. by apply rect_label_spans_rect.
      * constructor; [simpl; lia|].
        eapply Forall_impl; [exact Hall|]. simpl. intros c0 [? ?]. lia.
Qed.
End row_design.

(** ** The rows of the main-draw pass *)

Lemma calls_of_row_app r a b :
  calls_of_row r (a ++ b) = calls_of_row r a ++ calls_of_row r b.
Proof. apply List.filter_app. Qed.

Lemma calls_of_row_all r calls :
  Forall (fun c => call_row c = r) calls -> calls_of_row r calls = calls.
Proof.
  induction 1 as [|c calls Hc _ IH]; [reflexivity|]. unfold calls_of_row in *.
  simpl. rewrite Hc, Z.eqb_refl, IH. reflexivity.
Qed.

Lemma calls_of_row_none r calls :
  Forall (fun c => call_row c <> r) calls -> calls_of_row r calls = [].
Proof.
  induction 1 as [|c calls Hc _ IH]; [reflexivity|]. unfold calls_of_row in *.
  simpl. destruct (Z.eqb_spec (call_row c) r); [contradiction | exact IH].
Qed.

(** One row of a well-formed table: [get_row_height] and the column loop of
    the renderer, started on the first slot of the row, both return; the
    renderer ends on the first slot of the next row and has drawn with a
    text exactly the cells measured, on the same merged widths. *)
Lemma design_row_ok env t r :
  table_ok env t = true ->
  0 <= r < row_cnt (ext_attr t) ->
  let e := ext_attr t in
  forall x ya yb flags,
  exists h log flags' calls,
    get_row_height_log env t r = Some (h, log) /\
    design_cols (col_fuel e) e r 0 (r * col_cnt e) x ya yb flags
      = Some ((r + 1) * col_cnt e, flags', calls) /\
    measured_spans (body_padding_hor (cell_style e)) log
      = rect_label_spans calls /\
    Forall (fun c => call_row c = r /\ 0 <= call_col c < col_cnt e) calls.
Proof.
  intros Hok Hr e x ya yb flags. unfold get_row_height_log. fold e.
  pose proof Hr as Hr'. fold e in Hr'.
  destruct (table_ok_spec _ _ Hok) as (HR & HC & HW & H16 & Hst).
  cbv zeta in HR, HC, HW, H16, Hst. fold e in HR, HC, HW, H16, Hst.
  destruct (cell_data e) as [cells|] eqn:Hcd.
  - destruct (table_ok_row _ _ _ _ Hok Hcd Hr) as (Hall & Hw & H0 & Hlen & Hlt).
    cbv zeta in Hall, Hw, H0, Hlen, Hlt. fold e in Hall, Hw, H0, Hlen, Hlt.
    rewrite wrap16_small by lia.
    destruct (design_cols_spec env e cells (r * col_cnt e) r ya yb Hcd Hall Hw
                H0 Hlen Hlt (col_fuel e) 0 x flags
                (lv_font_get_height env (text_font (cell_style e))))
      as (h & log & flags' & calls & Hrun & Hd & Hspans & _ & Htags);
      [lia | unfold col_fuel; lia |].
    rewrite Z.add_0_r in Hrun, Hd. rewrite Hrun. simpl.
    eexists _, log, flags', calls. split; [reflexivity|].
    split; [|split; [exact Hspans | exact Htags]].
    replace ((r + 1) * col_cnt e) with (r * col_cnt e + col_cnt e) by ring.
    exact Hd.
  - unfold store_ok in Hst. rewrite Hcd in Hst. apply Z.eqb_eq in Hst.
    assert (col_cnt e = 0) as HC0 by nia.
    pose proof (row_height_cells_done env e (wrap16 (r * col_cnt e))
                  (col_fuel e) 0
                  (lv_font_get_height env (text_font (cell_style e)))) as Hrun.
    rewrite Z.add_0_r in Hrun. rewrite Hrun by lia. simpl.
    rewrite design_cols_done by lia.
    eexists _, [], flags, []. split; [reflexivity|].
    split; [|split; [reflexivity | constructor]].
    rewrite HC0. do 3 f_equal. lia.
Qed.



(** ** Merge chains *)








(** * Further properties of the code *)

(** ** Column widths *)

Lemma idx_insert_eq {A} (a : list A) i x :
  0 <= i < Z.of_nat (length a) -> idx (<[Z.to_nat i := x]> a) i = Some x.
Proof.
  intros H. unfold idx. destruct (Z.ltb_spec i 0); [lia|].
  apply list_lookup_insert_eq. lia.
Qed.

Lemma idx_insert_ne {A} (a : list A) i j x :
  0 <= i -> j <> i -> idx (<[Z.to_nat i := x]> a) j = idx a j.
Proof.
  intros Hi Hne. unfold idx. destruct (Z.ltb_spec j 0); [reflexivity|].
  apply list_lookup_insert_ne. lia.
Qed.

Lemma get_row_height_ext env t t' r :
  ext_attr t' = ext_attr t -> get_row_height env t' r = get_row_height env t r.
Proof.
  intros H. unfold get_row_height, get_row_height_log. rewrite H. reflexivity.
Qed.

(** The size [refr_size] sets is a fixed point: recomputing it changes
    nothing. *)
Lemma refr_size_idem env t t' :
  refr_size env t = Some t' -> refr_size env t' = Some t'.
Proof.
  intros H. pose proof (refr_size_ext _ _ _ H) as Hext.
  unfold refr_size in *. rewrite Hext.
  destruct (sum_loop _ (seqZ 0 (col_cnt _)) 0) as [w|]; [|discriminate].
  simpl in *.
  rewrite (sum_loop_ext _ (fun i => get_row_height env t i))
    by (intros; by apply get_row_height_ext).
  destruct (sum_loop _ (seqZ 0 (row_cnt _)) 0) as [h|]; [|discriminate].
  simpl in *. injection H as <-. reflexivity.
Qed.

(** X1. Column width round trip: on a well-formed table
    [lv_table_set_col_width] with a column below the cap returns, the width
    reads back as set, the widths of the other columns, the counts and the
    cells are unchanged, and the size of the table is recomputed from the
    new widths. *)
Theorem col_width_round_trip env t col_id w :
  table_ok env t = true ->
  0 <= col_id < LV_TABLE_COL_MAX env ->
  exists t',
    lv_table_set_col_width env t col_id w = Some t' /\
    lv_table_get_col_width env t' col_id = Some w /\
    (forall j, j <> col_id ->
               lv_table_get_col_width env t' j = lv_table_get_col_width env t j) /\
    cell_data (ext_attr t') = cell_data (ext_attr t) /\
    lv_table_get_row_cnt t' = lv_table_get_row_cnt t /\
    lv_table_get_col_cnt t' = lv_table_get_col_cnt t /\
    table_ok env t' = true /\
    refr_size env t' = Some t'.
Proof.
  intros Hok Hcol.
  destruct (table_ok_spec _ _ Hok) as (HR & HC & HW & H16 & Hst).
  set (e' := with_col_w (ext_attr t) (<[Z.to_nat col_id := w]> (col_w (ext_attr t)))).
  assert (table_ok env (with_ext t e') = true) as Hok'.
  { unfold table_ok in *. simpl. rewrite length_insert. exact Hok. }
  destruct (refr_size_spec env _ Hok') as (ws & hs & _ & _ & Hr).
  destruct (idx_is_Some (col_w (ext_attr t)) col_id) as [w0 Hw0]; [lia|].
  eexists. split.
  { unfold lv_table_set_col_width.
    destruct (Z.geb_spec col_id (LV_TABLE_COL_MAX env)); [lia|].
    rewrite Hw0. simpl. exact Hr. }
  unfold lv_table_get_col_width, lv_table_get_row_cnt, lv_table_get_col_cnt.
  simpl. destruct (Z.geb_spec col_id (LV_TABLE_COL_MAX env)); [lia|].
  split; [apply idx_insert_eq; lia|]. split.
  { intros j Hj. destruct (j >=? LV_TABLE_COL_MAX env); [reflexivity|].
    apply idx_insert_ne; lia. }
  split; [reflexivity|]. split; [reflexivity|]. split; [reflexivity|].
  split; [exact Hok'|]. by eapply refr_size_idem.
Qed.

Lemma col_width_round_trip_witness :
  table_ok env0 table1 = true /\
  exists t',
    lv_table_set_col_width env0 table1 1 40 = Some t' /\
    lv_table_get_col_width env0 t' 1 = Some 40 /\
    lv_table_get_col_width env0 t' 0 = Some 100 /\
    obj_size t' = (244, 26).
Proof.
  split; [reflexivity|].
  destruct (col_width_round_trip env0 table1 1 40 eq_refl)
    as (t' & Hset & Hget & Hother & _); [simpl; lia|].
  exists t'. split; [exact Hset|]. split; [exact Hget|].
  split; [rewrite Hother by lia; reflexivity|].
  vm_compute in Hset. by injection Hset as <-.
Defined.

(** X2. The column cap: a column count or a column id that is not below
    [LV_TABLE_COL_MAX] is rejected. [lv_table_set_col_cnt] and
    [lv_table_set_col_width] return with the table unchanged, whatever its
    state, and [lv_table_get_col_width] returns 0. *)
Theorem column_cap_rejected env t n :
  n >= LV_TABLE_COL_MAX env ->
  (forall junk, lv_table_set_col_cnt env junk t n = Some t) /\
  (forall w, lv_table_set_col_width env t n w = Some t) /\
  lv_table_get_col_width env t n = Some 0.
Proof.
  intros Hn. unfold lv_table_set_col_cnt, lv_table_set_col_width,
    lv_table_get_col_width.
  destruct (Z.geb_spec n (LV_TABLE_COL_MAX env)); [|lia]. repeat split.
Qed.

Lemma column_cap_rejected_witness :
  12 >= LV_TABLE_COL_MAX env0 /\
  lv_table_set_col_cnt env0 stale table1 12 = Some table1 /\
  lv_table_set_col_width env0 table1 12 5 = Some table1 /\
  lv_table_get_col_width env0 table1 12 = Some 0.
Proof.
  split; [simpl; lia|].
  destruct (column_cap_rejected env0 table1 12) as (H1 & H2 & H3); [simpl; lia|].
  split; [apply H1|]. split; [apply H2 | exact H3].
Defined.

(** ** Cells under a change of the store *)

(** The three getters of a cell read the counts and the slot of the cell
    only. *)
Lemma cell_getters_agree t t' row col row' col' :
  (row >=? row_cnt (ext_attr t)) || (col >=? col_cnt (ext_attr t)) = false ->
  (row' >=? row_cnt (ext_attr t')) || (col' >=? col_cnt (ext_attr t')) = false ->
  read_slot (ext_attr t') (row' * col_cnt (ext_attr t') + col')
    = read_slot (ext_attr t) (row * col_cnt (ext_attr t) + col) ->
  lv_table_get_cell_value t' row' col' = lv_table_get_cell_value t row col /\
  lv_table_get_cell_align t' row' col' = lv_table_get_cell_align t row col /\
  lv_table_get_cell_merge_right t' row' col'
    = lv_table_get_cell_merge_right t row col.
Proof.
  intros Hg Hg' Hslot.
  unfold lv_table_get_cell_value, lv_table_get_cell_align,
    lv_table_get_cell_merge_right.
  rewrite Hg, Hg', Hslot. repeat split.
Qed.

Lemma read_slot_resize_old junk e i :
  0 <= row_cnt e ->
  0 <= i < row_cnt e * col_cnt e ->
  (exists cells, cell_data e = Some cells /\ i < Z.of_nat (length cells)) ->
  read_slot (resize_cell_data junk e) i = read_slot e i.
Proof.
  intros HR Hi (cells & Hcd & Hlen). unfold resize_cell_data.
  destruct (Z.gtb_spec (row_cnt e) 0), (Z.gtb_spec (col_cnt e) 0); simpl;
    try nia.
  unfold read_slot, idx. simpl. rewrite Hcd. simpl.
  destruct (Z.ltb_spec i 0); [reflexivity|].
  rewrite lv_mem_realloc_cells_old by (simpl; lia). reflexivity.
Qed.

Lemma read_slot_resize_new junk e i :
  0 <= row_cnt e ->
  0 <= i < row_cnt e * col_cnt e ->
  Z.of_nat (length (default [] (cell_data e))) <= i ->
  read_slot (resize_cell_data junk e) i = Some (junk (Z.to_nat i)).
Proof.
  intros HR Hi Hlen. unfold resize_cell_data.
  destruct (Z.gtb_spec (row_cnt e) 0), (Z.gtb_spec (col_cnt e) 0); simpl;
    try nia.
  unfold read_slot, idx. simpl. destruct (Z.ltb_spec i 0); [lia|].
  apply lv_mem_realloc_cells_new. lia.
Qed.

Lemma table_ok_store_cells env t :
  table_ok env t = true ->
  0 < row_cnt (ext_attr t) * col_cnt (ext_attr t) ->
  exists cells, cell_data (ext_attr t) = Some cells /\
                Z.of_nat (length cells)
                  = row_cnt (ext_attr t) * col_cnt (ext_attr t).
Proof.
  intros Hok Hpos. destruct (table_ok_spec _ _ Hok) as (_ & _ & _ & _ & Hst).
  destruct (store_ok_inv _ Hst) as [H _]. apply H. lia.
Qed.

(** X3. Changing the row count keeps the rows that remain. Whatever the
    allocator's memory holds, a call of [lv_table_set_row_cnt] on a
    well-formed table that returns has set the row count, kept the column
    count and the widths, established the store-size invariant on a grid of
    fewer than [2^16] cells, and left value, alignment and right-merge flag
    of every cell of the rows below both the old and the new count as they
    were. On an allocator that hands out zeroed memory the call returns
    when the new grid has fewer than [2^16] cells, the table stays
    well-formed and the cells of the rows added are empty. *)
Theorem set_row_cnt_keeps_rows env t n :
  table_ok env t = true ->
  0 <= n ->
  (forall junk t',
     lv_table_set_row_cnt env junk t n = Some t' ->
     lv_table_get_row_cnt t' = n /\
     lv_table_get_col_cnt t' = lv_table_get_col_cnt t /\
     col_w (ext_attr t') = col_w (ext_attr t) /\
     store_inv (ext_attr t') /\
     row_cnt (ext_attr t') * col_cnt (ext_attr t') < 65536 /\
     forall row col,
       0 <= row < Z.min (row_cnt (ext_attr t)) n ->
       0 <= col < col_cnt (ext_attr t) ->
       lv_table_get_cell_value t' row col = lv_table_get_cell_value t row col /\
       lv_table_get_cell_align t' row col = lv_table_get_cell_align t row col /\
       lv_table_get_cell_merge_right t' row col
         = lv_table_get_cell_merge_right t row col) /\
  (n * col_cnt (ext_attr t) < 65536 ->
   exists t',
     lv_table_set_row_cnt env zeroed t n = Some t' /\
     table_ok env t' = true /\
     forall row col,
       row_cnt (ext_attr t) <= row < n -> 0 <= col < col_cnt (ext_attr t) ->
       lv_table_get_cell_value t' row col = Some [] /\
       lv_table_get_cell_align t' row col = Some LV_LABEL_ALIGN_LEFT /\
       lv_table_get_cell_merge_right t' row col = Some false).
Proof.
  intros Hok Hn.
  destruct (table_ok_spec _ _ Hok) as (HR & HC & HW & H16 & Hst).
  split.
  - intros junk t' Hset.
    pose proof (set_row_cnt_cells_16 env junk t n t' Hn Hset) as Hcells.
    pose proof (store_inv_set_row_cnt env junk t n t' Hn ltac:(lia) Hset) as Hinv.
    unfold lv_table_set_row_cnt in Hset. apply refr_size_ext in Hset.
    simpl in Hset.
    assert (row_cnt (ext_attr t') = n /\
            col_cnt (ext_attr t') = col_cnt (ext_attr t) /\
            col_w (ext_attr t') = col_w (ext_attr t)) as (HR' & HC' & HW').
    { rewrite Hset. unfold resize_cell_data. by destruct (_ && _). }
    unfold lv_table_get_row_cnt, lv_table_get_col_cnt.
    split; [exact HR'|]. split; [exact HC'|]. split; [exact HW'|].
    split; [exact Hinv|]. split; [exact Hcells|].
    intros row col Hrow Hcol. apply cell_getters_agree.
    + apply valid_cell_guard; lia.
    + apply valid_cell_guard; rewrite ?HR', ?HC'; lia.
    + rewrite HC', Hset.
      pose proof (cell_index_range (Z.min (row_cnt (ext_attr t)) n)
                    (col_cnt (ext_attr t)) row col Hrow Hcol) as Hi.
      destruct (table_ok_store_cells env t Hok) as (cells & Hcd & Hlen); [nia|].
      rewrite read_slot_resize_old; [reflexivity | simpl; lia | simpl; nia |].
      exists cells. split; [exact Hcd | nia].
  - intros Hbound.
    destruct (set_row_cnt_zeroed_ok env t n Hok Hn Hbound)
      as (t' & Hset & Hok' & HR' & HC').
    exists t'. split; [exact Hset|]. split; [exact Hok'|].
    intros row col Hrow Hcol.
    pose proof Hset as Hext. unfold lv_table_set_row_cnt in Hext.
    apply refr_size_ext in Hext. simpl in Hext.
    assert (read_slot (ext_attr t') (row * col_cnt (ext_attr t') + col)
            = Some None) as Hslot.
    { rewrite HC', Hext.
      pose proof (cell_index_range n (col_cnt (ext_attr t)) row col
                    ltac:(lia) Hcol) as Hi.
      rewrite read_slot_resize_new; [reflexivity | simpl; lia | simpl; lia |]. simpl.
      destruct (cell_data (ext_attr t)) as [cells|] eqn:Hcd; simpl; [|lia].
      destruct (store_ok_cells _ _ Hst Hcd) as (_ & Hlen & _). nia. }
    unfold lv_table_get_cell_value, lv_table_get_cell_align,
      lv_table_get_cell_merge_right.
    rewrite valid_cell_guard by (rewrite ?HR', ?HC'; lia).
    rewrite Hslot. repeat split.
Qed.

Lemma set_row_cnt_keeps_rows_witness :
  table_ok env0 table1 = true /\ 0 <= 3 /\
  exists t',
    lv_table_set_row_cnt env0 zeroed table1 3 = Some t' /\
    lv_table_get_row_cnt t' = 3 /\
    lv_table_get_cell_value t' 0 0 = lv_table_get_cell_value table1 0 0 /\
    lv_table_get_cell_value t' 2 1 = Some [].
Proof.
  split; [reflexivity|]. split; [lia|].
  destruct (set_row_cnt_keeps_rows env0 table1 3 eq_refl) as [Hany Hzero]; [lia|].
  destruct Hzero as (t' & Hset & _ & Hnew); [simpl; lia|].
  destruct (Hany zeroed t' Hset) as (HR & _ & _ & _ & _ & Hold).
  exists t'. split; [exact Hset|]. split; [exact HR|]. split.
  - apply (Hold 0 0); simpl; lia.
  - apply (Hnew 2 1); simpl; lia.
Defined.

(** X4. Changing the column count keeps the flat array, not the grid.
    Whatever the allocator's memory holds, a call of [lv_table_set_col_cnt]
    below the cap on a well-formed table that returns has set the column
    count, kept the row count and the widths, and established the store-size
    invariant on a grid of fewer than [2^16] cells; the cell (row, col) of
    the new grid shows the old slot of the same linear offset
    [row * n + col], that is the old cell at row [(row * n + col) / C] and
    column [(row * n + col) mod C]. On an allocator that hands out zeroed
    memory the call returns when the new grid has fewer than [2^16] cells,
    and the table stays well-formed. *)
Theorem set_col_cnt_keeps_flat_array env t n :
  table_ok env t = true ->
  0 <= n < LV_TABLE_COL_MAX env ->
  (forall junk t',
     lv_table_set_col_cnt env junk t n = Some t' ->
     lv_table_get_col_cnt t' = n /\
     lv_table_get_row_cnt t' = lv_table_get_row_cnt t /\
     col_w (ext_attr t') = col_w (ext_attr t) /\
     store_inv (ext_attr t') /\
     row_cnt (ext_attr t') * col_cnt (ext_attr t') < 65536 /\
     forall row col,
       0 <= row < row_cnt (ext_attr t) -> 0 <= col < n ->
       let i := row * n + col in
       let C := col_cnt (ext_attr t) in
       i < row_cnt (ext_attr t) * C ->
       lv_table_get_cell_value t' row col
         = lv_table_get_cell_value t (i / C) (i mod C) /\
       lv_table_get_cell_align t' row col
         = lv_table_get_cell_align t (i / C) (i mod C) /\
       lv_table_get_cell_merge_right t' row col
         = lv_table_get_cell_merge_right t (i / C) (i mod C)) /\
  (row_cnt (ext_attr t) * n < 65536 ->
   exists t', lv_table_set_col_cnt env zeroed t n = Some t' /\
              table_ok env t' = true).
Proof.
  intros Hok Hn.
  destruct (table_ok_spec _ _ Hok) as (HR & HC & HW & H16 & Hst).
  split.
  - intros junk t' Hset.
    pose proof (set_col_cnt_cells_16 env junk t n t' HR ltac:(lia) Hset) as Hcells.
    pose proof (store_inv_set_col_cnt env junk t n t' ltac:(lia) HR
                  (store_ok_inv _ Hst) Hset) as Hinv.
    unfold lv_table_set_col_cnt in Hset.
    destruct (Z.geb_spec n (LV_TABLE_COL_MAX env)); [lia|].
    apply refr_size_ext in Hset. simpl in Hset.
    assert (col_cnt (ext_attr t') = n /\
            row_cnt (ext_attr t') = row_cnt (ext_attr t) /\
            col_w (ext_attr t') = col_w (ext_attr t)) as (HC' & HR' & HW').
    { rewrite Hset. unfold resize_cell_data. by destruct (_ && _). }
    unfold lv_table_get_row_cnt, lv_table_get_col_cnt.
    split; [exact HC'|]. split; [exact HR'|]. split; [exact HW'|].
    split; [exact Hinv|]. split; [exact Hcells|].
    intros row col Hrow Hcol Hi.
    set (i := row * n + col) in *. set (C := col_cnt (ext_attr t)) in *.
    assert (0 <= i) as Hi0 by (unfold i; nia).
    assert (0 < C) as HCpos by (unfold C in *; nia).
    pose proof (Z.div_mod i C ltac:(lia)) as Hdm.
    pose proof (Z.mod_pos_bound i C HCpos) as Hmod.
    assert (0 <= i / C < row_cnt (ext_attr t)) as Hdiv.
    { split; [apply Z.div_pos; lia|].
      apply Z.div_lt_upper_bound; [lia|]. unfold C in *. lia. }
    apply cell_getters_agree.
    + apply valid_cell_guard; assumption.
    + apply valid_cell_guard; rewrite ?HR', ?HC'; lia.
    + rewrite HC', Hset. fold C. fold i.
      replace (i / C * C + i mod C) with i by lia.
      destruct (table_ok_store_cells env t Hok) as (cells & Hcd & Hlen);
        [fold C; lia|].
      rewrite read_slot_resize_old; [reflexivity | simpl; lia | simpl; nia |].
      exists cells. split; [exact Hcd | fold C in Hlen; lia].
  - intros Hbound.
    destruct (set_col_cnt_zeroed_ok env t n Hok Hn Hbound)
      as (t' & Hset & Hok' & _). eauto.
Qed.

Lemma set_col_cnt_keeps_flat_array_witness :
  table_ok env0 table1 = true /\ 0 <= 4 < LV_TABLE_COL_MAX env0 /\
  exists t',
    lv_table_set_col_cnt env0 zeroed table1 4 = Some t' /\
    lv_table_get_col_cnt t' = 4 /\
    lv_table_get_cell_value t' 1 0 = lv_table_get_cell_value table1 1 1 /\
    lv_table_get_cell_value t' 1 0 = Some [65; 66; 67].
Proof.
  split; [reflexivity|]. split; [simpl; lia|].
  destruct (set_col_cnt_keeps_flat_array env0 table1 4 eq_refl)
    as [Hany Hzero]; [simpl; lia|].
  destruct Hzero as (t' & Hset & _); [simpl; lia|].
  destruct (Hany zeroed t' Hset) as (HC & _ & _ & _ & _ & Hold).
  pose proof (Hold 1 0 ltac:(simpl; lia) ltac:(lia) ltac:(simpl; lia))
    as (Hvalue & _).
  exists t'. split; [exact Hset|]. split; [exact HC|].
  split; [exact Hvalue | rewrite Hvalue; reflexivity].
Defined.

(** ** Alignment and right-merge flag of a cell *)

Lemma write_slot_other e i p e' j :
  write_slot e i p = Some e' -> j <> i ->
  read_slot e' j = read_slot e j /\
  row_cnt e' = row_cnt e /\ col_cnt e' = col_cnt e /\ col_w e' = col_w e /\
  cell_style e' = cell_style e.
Proof.
  unfold write_slot, read_slot. intros H Hne.
  destruct (cell_data e) as [cells|]; [|discriminate]. simpl in *.
  destruct (idx cells i) as [q|] eqn:Hq; [|discriminate]. simpl in H.
  injection H as <-. simpl. apply idx_Some in Hq as [Hi _].
  split; [by apply idx_insert_ne | repeat split].
Qed.

(** What the cell setters do to the table besides the layout: one slot is
    written. *)
Lemma set_cell_value_store env junk t row col txt t' :
  (row >=? row_cnt (ext_attr t)) || (col >=? col_cnt (ext_attr t)) = false ->
  lv_table_set_cell_value env junk t row col txt = Some t' ->
  exists buf, write_slot (ext_attr t) (row * col_cnt (ext_attr t) + col)
                (Some buf) = Some (ext_attr t').
Proof.
  unfold lv_table_set_cell_value. intros ->.
  destruct (read_slot _ _) as [p|]; [|discriminate]. simpl.
  destruct (match p with Some b => idx b 0 | None => _ end) as [f|];
    [|discriminate]. simpl.
  destruct (write_slot _ _ _) as [e'|] eqn:Hw; [|discriminate]. simpl.
  intros H%refr_size_ext. simpl in H. rewrite H. eauto.
Qed.

Lemma set_cell_align_store junk t row col align t' :
  (row >=? row_cnt (ext_attr t)) || (col >=? col_cnt (ext_attr t)) = false ->
  lv_table_set_cell_align junk t row col align = Some t' ->
  (exists buf, write_slot (ext_attr t) (row * col_cnt (ext_attr t) + col)
                 (Some buf) = Some (ext_attr t')) /\
  obj_size t' = obj_size t /\ obj_style t' = obj_style t /\
  coords_x1 t' = coords_x1 t /\ coords_y1 t' = coords_y1 t.
Proof.
  unfold lv_table_set_cell_align. intros ->.
  destruct (read_slot _ _) as [p|]; [|discriminate]. simpl.
  destruct (idx (ensure_slot junk p) 0) as [f|]; [|discriminate]. simpl.
  destruct (write_slot _ _ _) as [e'|] eqn:Hw; [|discriminate]. simpl.
  intros [= <-]. simpl. eauto 10.
Qed.

Lemma set_cell_merge_right_store env junk t row col en t' :
  (row >=? row_cnt (ext_attr t)) || (col >=? col_cnt (ext_attr t)) = false ->
  lv_table_set_cell_merge_right env junk t row col en = Some t' ->
  exists buf, write_slot (ext_attr t) (row * col_cnt (ext_attr t) + col)
                (Some buf) = Some (ext_attr t').
Proof.
  unfold lv_table_set_cell_merge_right. intros ->.
  destruct (read_slot _ _) as [p|]; [|discriminate]. simpl.
  destruct (idx (ensure_slot junk p) 0) as [f|]; [|discriminate]. simpl.
  destruct (write_slot _ _ _) as [e'|] eqn:Hw; [|discriminate]. simpl.
  intros H%refr_size_ext. simpl in H. rewrite H. eauto.
Qed.

Lemma idx_0_set_format (b : list Z) f x :
  idx b 0 = Some f -> idx (<[0%nat := x]> b) 0 = Some x.
Proof. intros [r ->]%idx_0_cons. reflexivity. Qed.

(** X5. Alignment round trip: on a valid cell of a well-formed table
    [lv_table_set_cell_align] returns and [lv_table_get_cell_align] reads
    back the two low bits of the alignment given, hence the alignment itself
    for left, center and right; the right-merge flag of a slot that was
    allocated is unchanged; and the size and the style of the widget are
    unchanged, the layout is not recomputed. *)
Theorem cell_align_round_trip env junk t row col align :
  table_ok env t = true ->
  0 <= row < row_cnt (ext_attr t) -> 0 <= col < col_cnt (ext_attr t) ->
  exists t',
    lv_table_set_cell_align junk t row col align = Some t' /\
    lv_table_get_cell_align t' row col = Some (Z.land align 3) /\
    (0 <= align < 4 -> lv_table_get_cell_align t' row col = Some align) /\
    (forall b,
       read_slot (ext_attr t) (row * col_cnt (ext_attr t) + col) = Some (Some b) ->
       lv_table_get_cell_merge_right t' row col
         = lv_table_get_cell_merge_right t row col) /\
    obj_size t' = obj_size t /\ obj_style t' = obj_style t /\
    table_ok env t' = true.
Proof.
  intros Hok Hrow Hcol.
  destruct (set_cell_align_spec env junk t row col align Hok Hrow Hcol)
    as (p & format & t' & Hp & Hf & Hset & Hok' & HR & HC & Hread).
  cbv zeta in *. exists t'. split; [exact Hset|].
  assert (lv_table_get_cell_align t' row col = Some (Z.land align 3)) as Hget.
  { unfold lv_table_get_cell_align.
    rewrite HR, HC, valid_cell_guard by assumption. rewrite Hread. simpl.
    rewrite (idx_0_set_format _ _ _ Hf). simpl.
    by rewrite format_align_set_align. }
  split; [exact Hget|]. split.
  { intros Ha. by rewrite Hget, format_align_small. }
  split.
  { intros b Hb. rewrite Hb in Hp. injection Hp as <-. simpl in Hf, Hread.
    unfold lv_table_get_cell_merge_right.
    rewrite HR, HC, valid_cell_guard by assumption. rewrite Hread, Hb. simpl.
    rewrite (idx_0_set_format _ _ _ Hf), Hf. simpl.
    by rewrite format_right_merge_set_align. }
  destruct (set_cell_align_store junk t row col align t'
              (valid_cell_guard _ _ _ Hrow Hcol) Hset) as (_ & Hs & Hst & _).
  split; [exact Hs|]. split; [exact Hst | exact Hok'].
Qed.

Lemma cell_align_round_trip_witness :
  table_ok env0 table1 = true /\
  exists t',
    lv_table_set_cell_align 0 table1 0 0 LV_LABEL_ALIGN_CENTER = Some t' /\
    lv_table_get_cell_align t' 0 0 = Some LV_LABEL_ALIGN_CENTER /\
    lv_table_get_cell_merge_right t' 0 0 = Some true /\
    obj_size t' = obj_size table1.
Proof.
  split; [reflexivity|].
  destruct (cell_align_round_trip env0 0 table1 0 0 LV_LABEL_ALIGN_CENTER eq_refl)
    as (t' & Hset & _ & Hget & Hmerge & Hsize & _); [simpl; lia | simpl; lia |].
  exists t'. split; [exact Hset|]. split; [apply Hget; unfold LV_LABEL_ALIGN_CENTER; lia|].
  split; [|exact Hsize].
  rewrite (Hmerge [4; 72; 105; 0] eq_refl). reflexivity.
Defined.

(** X6. Right-merge round trip: on a valid cell of a well-formed table
    [lv_table_set_cell_merge_right] returns and
    [lv_table_get_cell_merge_right] reads back the flag given; the alignment
    of a slot that was allocated is unchanged; and the size of the widget is
    the one recomputed from the new store. *)
Theorem cell_merge_right_round_trip env junk t row col en :
  table_ok env t = true ->
  0 <= row < row_cnt (ext_attr t) -> 0 <= col < col_cnt (ext_attr t) ->
  exists t',
    lv_table_set_cell_merge_right env junk t row col en = Some t' /\
    lv_table_get_cell_merge_right t' row col = Some en /\
    (forall b,
       read_slot (ext_attr t) (row * col_cnt (ext_attr t) + col) = Some (Some b) ->
       lv_table_get_cell_align t' row col = lv_table_get_cell_align t row col) /\
    refr_size env t' = Some t' /\
    table_ok env t' = true.
Proof.
  intros Hok Hrow Hcol.
  destruct (set_cell_merge_right_spec env junk t row col en Hok Hrow Hcol)
    as (p & format & t' & Hp & Hf & Hset & Hok' & HR & HC & Hread).
  cbv zeta in *. exists t'. split; [exact Hset|]. split.
  { unfold lv_table_get_cell_merge_right.
    rewrite HR, HC, valid_cell_guard by assumption. rewrite Hread. simpl.
    rewrite (idx_0_set_format _ _ _ Hf). simpl.
    rewrite format_right_merge_set_right_merge. by destruct en. }
  split.
  { intros b Hb. rewrite Hb in Hp. injection Hp as <-. simpl in Hf, Hread.
    unfold lv_table_get_cell_align.
    rewrite HR, HC, valid_cell_guard by assumption. rewrite Hread, Hb. simpl.
    rewrite (idx_0_set_format _ _ _ Hf), Hf. simpl.
    by rewrite format_align_set_right_merge. }
  split; [|exact Hok'].
  unfold lv_table_set_cell_merge_right in Hset.
  rewrite valid_cell_guard in Hset by assumption.
  destruct (read_slot _ _) as [q|]; [|discriminate]. simpl in Hset.
  destruct (idx (ensure_slot junk q) 0); [|discriminate]. simpl in Hset.
  destruct (write_slot _ _ _); [|discriminate]. simpl in Hset.
  by eapply refr_size_idem.
Qed.

Lemma cell_merge_right_round_trip_witness :
  table_ok env0 table1 = true /\
  exists t',
    lv_table_set_cell_merge_right env0 0 table1 1 1 true = Some t' /\
    lv_table_get_cell_merge_right t' 1 1 = Some true /\
    lv_table_get_cell_align t' 1 1 = Some LV_LABEL_ALIGN_RIGHT.
Proof.
  split; [reflexivity|].
  destruct (cell_merge_right_round_trip env0 0 table1 1 1 true eq_refl)
    as (t' & Hset & Hget & Halign & _); [simpl; lia | simpl; lia |].
  exists t'. split; [exact Hset|]. split; [exact Hget|].
  rewrite (Halign [2; 65; 66; 67; 0] eq_refl). reflexivity.
Defined.

(** ** The other cells *)

Lemma cell_index_inj (C row col row' col' : Z) :
  0 <= col < C -> 0 <= col' < C ->
  row * C + col = row' * C + col' -> row = row' /\ col = col'.
Proof.
  intros Hc Hc' Heq.
  assert (row = row') as -> by nia. split; [reflexivity | lia].
Qed.

(** X7. The cell setters change one cell. On a well-formed table each of
    [lv_table_set_cell_value], [lv_table_set_cell_align] and
    [lv_table_set_cell_merge_right] on a valid cell returns and leaves the
    counts and the value, the alignment and the right-merge flag of every
    other valid cell as they were. *)
Theorem cell_setters_frame env t row col row' col' :
  table_ok env t = true ->
  0 <= row < row_cnt (ext_attr t) -> 0 <= col < col_cnt (ext_attr t) ->
  0 <= row' < row_cnt (ext_attr t) -> 0 <= col' < col_cnt (ext_attr t) ->
  (row', col') <> (row, col) ->
  let same t' :=
    lv_table_get_row_cnt t' = lv_table_get_row_cnt t /\
    lv_table_get_col_cnt t' = lv_table_get_col_cnt t /\
    lv_table_get_cell_value t' row' col' = lv_table_get_cell_value t row' col' /\
    lv_table_get_cell_align t' row' col' = lv_table_get_cell_align t row' col' /\
    lv_table_get_cell_merge_right t' row' col'
      = lv_table_get_cell_merge_right t row' col' in
  (forall junk txt,
     exists t', lv_table_set_cell_value env junk t row col txt = Some t' /\
                same t') /\
  (forall junk align,
     exists t', lv_table_set_cell_align junk t row col align = Some t' /\
                same t') /\
  (forall junk en,
     exists t', lv_table_set_cell_merge_right env junk t row col en = Some t' /\
                same t').
Proof.
  intros Hok Hrow Hcol Hrow' Hcol' Hne same.
  pose proof (valid_cell_guard _ _ _ Hrow Hcol) as Hg.
  pose proof (valid_cell_guard _ _ _ Hrow' Hcol') as Hg'.
  assert (row' * col_cnt (ext_attr t) + col' <> row * col_cnt (ext_attr t) + col)
    as Hidx.
  { intros Heq. apply cell_index_inj in Heq as [-> ->]; [|lia|lia].
    by apply Hne. }
  assert (forall t',
            (exists buf, write_slot (ext_attr t)
                           (row * col_cnt (ext_attr t) + col) (Some buf)
                         = Some (ext_attr t')) -> same t') as Hsame.
  { intros t' [buf Hw].
    destruct (write_slot_other _ _ _ _ _ Hw Hidx) as (Hslot & HR & HC & _).
    unfold same, lv_table_get_row_cnt, lv_table_get_col_cnt.
    split; [exact HR|]. split; [exact HC|].
    apply cell_getters_agree; [exact Hg' | by rewrite HR, HC | by rewrite HC]. }
  split; [|split].
  - intros junk txt.
    destruct (set_cell_value_spec env junk t row col txt Hok Hrow Hcol)
      as (_ & _ & t' & _ & _ & Hset & _).
    exists t'. split; [exact Hset|].
    apply Hsame. by eapply set_cell_value_store.
  - intros junk align.
    destruct (set_cell_align_spec env junk t row col align Hok Hrow Hcol)
      as (_ & _ & t' & _ & _ & Hset & _).
    exists t'. split; [exact Hset|].
    apply Hsame. by eapply set_cell_align_store.
  - intros junk en.
    destruct (set_cell_merge_right_spec env junk t row col en Hok Hrow Hcol)
      as (_ & _ & t' & _ & _ & Hset & _).
    exists t'. split; [exact Hset|].
    apply Hsame. by eapply set_cell_merge_right_store.
Qed.

Lemma cell_setters_frame_witness :
  table_ok env0 table1 = true /\ (1, 1) <> (0, 0) /\
  exists t',
    lv_table_set_cell_value env0 0 table1 0 0 [88] = Some t' /\
    lv_table_get_cell_value t' 1 1 = Some [65; 66; 67] /\
    lv_table_get_cell_align t' 1 1 = Some LV_LABEL_ALIGN_RIGHT.
Proof.
  split; [reflexivity|]. split; [discriminate|].
  destruct (cell_setters_frame env0 table1 0 0 1 1 eq_refl) as [Hvalue _];
    [simpl; lia | simpl; lia | simpl; lia | simpl; lia | discriminate |].
  destruct (Hvalue 0 [88]) as (t' & Hset & _ & _ & Hv & Ha & _).
  exists t'. split; [exact Hset|]. split; [rewrite Hv | rewrite Ha]; reflexivity.
Defined.

(** ** The height of a row *)






(** ** Creation and styles *)

(** X9. A new table: [lv_table_create] without a table to copy returns a
    well-formed table with no row and no column, every column width at
    [LV_DPI], the plain style for the cells and the plain colored style for
    the background, and a size of twice the padding of the background
    style; every cell getter returns its default. *)
Theorem create_empty_table env new_table :
  0 < LV_TABLE_COL_MAX env ->
  exists t,
    lv_table_create env new_table None = Some t /\
    table_ok env t = true /\
    lv_table_get_row_cnt t = 0 /\ lv_table_get_col_cnt t = 0 /\
    (forall col_id, 0 <= col_id < LV_TABLE_COL_MAX env ->
                    lv_table_get_col_width env t col_id = Some (LV_DPI env)) /\
    lv_table_get_style t LV_TABLE_STYLE_BG = lv_style_plain_color env /\
    lv_table_get_style t LV_TABLE_STYLE_CELL = lv_style_plain env /\
    obj_size t = (body_padding_hor (lv_style_plain_color env) * 2,
                  body_padding_ver (lv_style_plain_color env) * 2) /\
    (forall row col,
       0 <= row -> 0 <= col ->
       lv_table_get_cell_value t row col = Some [] /\
       lv_table_get_cell_align t row col = Some LV_LABEL_ALIGN_LEFT /\
       lv_table_get_cell_merge_right t row col = Some false).
Proof.
  intros Hmax. eexists. split; [reflexivity|]. simpl.
  split.
  { unfold table_ok. simpl. rewrite length_replicate.
    destruct (Z.ltb_spec 0 (LV_TABLE_COL_MAX env)); [|lia].
    rewrite Z2Nat.id by lia. by rewrite Z.eqb_refl. }
  split; [reflexivity|]. split; [reflexivity|]. split.
  { intros col_id Hcol. unfold lv_table_get_col_width. simpl.
    destruct (Z.geb_spec col_id (LV_TABLE_COL_MAX env)); [lia|].
    unfold idx. destruct (Z.ltb_spec col_id 0); [lia|].
    apply lookup_replicate_2. lia. }
  split; [reflexivity|]. split; [reflexivity|]. split; [reflexivity|].
  intros row col Hrow Hcol.
  unfold lv_table_get_cell_value, lv_table_get_cell_align,
    lv_table_get_cell_merge_right. simpl.
  destruct (Z.geb_spec row 0); [|lia]. repeat split.
Qed.

Lemma create_empty_table_witness :
  0 < LV_TABLE_COL_MAX env0 /\
  exists t,
    lv_table_create env0 obj0 None = Some t /\
    table_ok env0 t = true /\ obj_size t = (4, 2) /\
    lv_table_get_col_width env0 t 11 = Some 100.
Proof.
  split; [reflexivity|].
  destruct (create_empty_table env0 obj0) as (t & H1 & H2 & _ & _ & H3 & _ & _ & H4 & _);
    [reflexivity|].
  exists t. split; [exact H1|]. split; [exact H2|]. split; [exact H4|].
  apply H3. simpl. lia.
Defined.

(** X10. The two style slots: setting the cell style returns on every table,
    the cell style reads back, and the background style, the store and the
    size of the widget stay as they were, so that the size is not
    recomputed from the new cell style. Setting the background style, when
    it returns, makes the style read back, keeps the cell style and the
    store, and leaves the widget with the size recomputed from the new
    style; it returns on every well-formed table. *)
Theorem style_slots env t style :
  (exists t',
     lv_table_set_style env t LV_TABLE_STYLE_CELL style = Some t' /\
     lv_table_get_style t' LV_TABLE_STYLE_CELL = style /\
     lv_table_get_style t' LV_TABLE_STYLE_BG
       = lv_table_get_style t LV_TABLE_STYLE_BG /\
     cell_data (ext_attr t') = cell_data (ext_attr t) /\
     col_w (ext_attr t') = col_w (ext_attr t) /\
     obj_size t' = obj_size t) /\
  (forall t',
     lv_table_set_style env t LV_TABLE_STYLE_BG style = Some t' ->
     lv_table_get_style t' LV_TABLE_STYLE_BG = style /\
     lv_table_get_style t' LV_TABLE_STYLE_CELL
       = lv_table_get_style t LV_TABLE_STYLE_CELL /\
     ext_attr t' = ext_attr t /\
     refr_size env t' = Some t') /\
  (table_ok env t = true ->
   exists t', lv_table_set_style env t LV_TABLE_STYLE_BG style = Some t').
Proof.
  split; [|split].
  - eexists. split; [reflexivity|]. repeat split.
  - simpl. intros t' Hset. pose proof (refr_size_ext _ _ _ Hset) as Hext.
    pose proof (refr_size_idem _ _ _ Hset) as Hidem.
    unfold refr_size in Hset.
    destruct (sum_loop _ (seqZ 0 (col_cnt _)) 0); [|discriminate].
    destruct (sum_loop _ (seqZ 0 (row_cnt _)) 0); [|discriminate].
    simpl in Hset. injection Hset as <-. simpl. repeat split. exact Hidem.
  - intros Hok. simpl.
    destruct (refr_size_total env (lv_obj_set_style t style)) as (t' & Hr & _);
      [exact Hok | eauto].
Qed.

Lemma style_slots_witness :
  table_ok env0 table1 = true /\
  exists t',
    lv_table_set_style env0 table1 LV_TABLE_STYLE_BG
      {| body_padding_hor := 5; body_padding_ver := 7; text_font := 0;
         text_letter_space := 0; text_line_space := 0 |} = Some t' /\
    body_padding_hor (lv_table_get_style t' LV_TABLE_STYLE_BG) = 5 /\
    obj_size t' = (310, 38).
Proof.
  split; [reflexivity|].
  destruct (style_slots env0 table1
              {| body_padding_hor := 5; body_padding_ver := 7; text_font := 0;
                 text_letter_space := 0; text_line_space := 0 |})
    as (_ & Hbg & Htotal).
  destruct (Htotal eq_refl) as [t' Hset].
  destruct (Hbg t' Hset) as (Hstyle & _).
  exists t'. split; [exact Hset|]. split; [by rewrite Hstyle|].
  vm_compute in Hset. by injection Hset as <-.
Defined.

(** ** The limit of the 16-bit cell counter *)

Lemma design_rows_None env t rows r :
  r ∈ rows -> get_row_height env t r = None ->
  forall cell y flags, design_rows env t rows cell y flags = None.
Proof.
  intros Hr Hnone. induction rows as [|k rows IH]; intros cell y flags.
  - by apply elem_of_nil in Hr.
  - simpl. apply elem_of_cons in Hr as [<- | Hr]; [by rewrite Hnone|].
    destruct (get_row_height env t k); simpl; [|reflexivity].
    destruct (design_cols _ _ _ _ _ _ _ _ _) as [[[c f] calls]|]; simpl;
      [|reflexivity].
    by rewrite IH.
Qed.

(** X11. The layout engine and the renderer stop at [2^16] cells: on a
    table with at least one column and [2^16] cells or more there is a row
    on which [get_row_height] does not return, because its 16-bit cell
    counter wraps before the end of the row, and so neither [refr_size] nor
    the main-draw pass returns. *)
Theorem layout_limit_16_bit env t :
  0 < col_cnt (ext_attr t) ->
  65536 <= row_cnt (ext_attr t) * col_cnt (ext_attr t) ->
  (exists r, 0 <= r < row_cnt (ext_attr t) /\
             r * col_cnt (ext_attr t) <= 65535
               < r * col_cnt (ext_attr t) + col_cnt (ext_attr t) /\
             get_row_height env t r = None) /\
  refr_size env t = None /\
  (forall txt_flags,
     lv_table_design env t LV_DESIGN_DRAW_MAIN txt_flags = None).
Proof.
  intros HC Hcells.
  set (C := col_cnt (ext_attr t)) in *. set (R := row_cnt (ext_attr t)) in *.
  set (r := 65535 / C).
  assert (0 <= r) as Hr0 by (apply Z.div_pos; lia).
  assert (r * C <= 65535 < r * C + C) as Hr.
  { pose proof (Z.div_mod 65535 C ltac:(lia)) as Hdm.
    pose proof (Z.mod_pos_bound 65535 C HC) as Hmod. fold r in Hdm. lia. }
  assert (r < R) as HrR by nia.
  assert (get_row_height env t r = None) as Hnone.
  { unfold get_row_height, get_row_height_log. fold C.
    rewrite wrap16_small by lia.
    rewrite (row_height_cells_wraps env (ext_attr t) (r * C)) by (fold C; lia).
    reflexivity. }
  split; [exists r; split; [lia | split; [exact Hr | exact Hnone]]|].
  split; [by apply refr_size_needs_16_bit_cells|].
  intros txt_flags. unfold lv_table_design. fold R.
  rewrite (design_rows_None env t _ r); [reflexivity | | exact Hnone].
  apply elem_of_seqZ. lia.
Qed.

Lemma layout_limit_16_bit_witness :
  0 < col_cnt (ext_attr table_big) /\
  65536 <= row_cnt (ext_attr table_big) * col_cnt (ext_attr table_big) /\
  refr_size env0 table_big = None /\
  lv_table_design env0 table_big LV_DESIGN_DRAW_MAIN 0 = None.
Proof.
  assert (0 < col_cnt (ext_attr table_big)) as HC by (change (0 < 3); lia).
  assert (65536 <= row_cnt (ext_attr table_big) * col_cnt (ext_attr table_big))
    as Hcells by (change (65536 <= 30000 * 3); lia).
  split; [exact HC|]. split; [exact Hcells|].
  destruct (layout_limit_16_bit env0 table_big HC Hcells) as (_ & Hsize & Hdraw).
  split; [exact Hsize | apply Hdraw].
Defined.

(** ** The cleanup signal *)

Lemma cleanup_cells_spec e (N : nat) :
  col_cnt e * row_cnt e = Z.of_nat N -> Z.of_nat N < 65536 ->
  forall fuel (k : nat) cells,
    length cells = N -> (k <= N)%nat -> (N - k <= fuel)%nat ->
    cleanup_cells fuel (with_cell_data e (Some cells)) (Z.of_nat k)
    = Some (with_cell_data e (Some (take k cells ++ replicate (N - k) None))).
Proof.
  intros HN H16. induction fuel as [|n IH]; intros k cells Hlen Hk Hfuel.
  - simpl. destruct (Z.ltb_spec (Z.of_nat k) (col_cnt e * row_cnt e)); [lia|].
    replace (N - k)%nat with 0%nat by lia. rewrite app_nil_r.
    rewrite take_ge by lia. reflexivity.
  - simpl. destruct (Z.ltb_spec (Z.of_nat k) (col_cnt e * row_cnt e)) as [Hlt|Hge].
    2:{ replace (N - k)%nat with 0%nat by lia. rewrite app_nil_r.
        rewrite take_ge by lia. reflexivity. }
    destruct (lookup_lt_is_Some_2 cells k ltac:(lia)) as [p Hp].
    unfold read_slot, write_slot, idx. simpl.
    destruct (Z.ltb_spec (Z.of_nat k) 0); [lia|].
    rewrite Nat2Z.id, Hp. simpl.
    rewrite wrap16_small by lia.
    replace (Z.of_nat k + 1) with (Z.of_nat (S k)) by lia.
    replace (N - k)%nat with (S (N - S k)) by lia.
    destruct p as [b|]; simpl.
    + change (with_cell_data (with_cell_data e (Some cells)) ?x)
        with (with_cell_data e x).
      rewrite IH by (rewrite ?length_insert; lia).
      erewrite take_S_r by (apply list_lookup_insert_eq; lia).
      rewrite take_insert_ge by lia. by rewrite <- app_assoc.
    + rewrite IH by lia.
      erewrite take_S_r by exact Hp. by rewrite <- app_assoc.
Qed.

Lemma with_cell_data_id e cells :
  cell_data e = Some cells -> with_cell_data e (Some cells) = e.
Proof. destruct e. simpl. by intros ->. Qed.

Lemma with_ext_id t : with_ext t (ext_attr t) = t.
Proof. by destruct t. Qed.

Lemma cell_getters_empty t row col :
  (row >=? row_cnt (ext_attr t)) || (col >=? col_cnt (ext_attr t)) = false ->
  read_slot (ext_attr t) (row * col_cnt (ext_attr t) + col) = Some None ->
  lv_table_get_cell_value t row col = Some [] /\
  lv_table_get_cell_align t row col = Some LV_LABEL_ALIGN_LEFT /\
  lv_table_get_cell_merge_right t row col = Some false.
Proof.
  intros Hg Hslot.
  unfold lv_table_get_cell_value, lv_table_get_cell_align,
    lv_table_get_cell_merge_right.
  rewrite Hg, Hslot. repeat split.
Qed.

(** X12. The cleanup signal frees every cell: on a well-formed table, when
    the ancestor's signal function returned [LV_RES_OK], the cleanup signal
    returns [LV_RES_OK] and leaves every slot NULL, so that every cell reads
    empty, left-aligned and not merged; the counts, the widths and the size
    are unchanged and the table is still well-formed. When the ancestor
    returned [LV_RES_INV], every signal returns it and touches nothing. *)
Theorem cleanup_frees_all env max_ancestor_num t buf :
  table_ok env t = true ->
  (exists t',
     lv_table_signal max_ancestor_num LV_RES_OK t LV_SIGNAL_CLEANUP buf
       = Some (LV_RES_OK, t', buf) /\
     table_ok env t' = true /\
     lv_table_get_row_cnt t' = lv_table_get_row_cnt t /\
     lv_table_get_col_cnt t' = lv_table_get_col_cnt t /\
     col_w (ext_attr t') = col_w (ext_attr t) /\
     obj_size t' = obj_size t /\
     forall row col,
       0 <= row < row_cnt (ext_attr t) -> 0 <= col < col_cnt (ext_attr t) ->
       read_slot (ext_attr t') (row * col_cnt (ext_attr t) + col) = Some None /\
       lv_table_get_cell_value t' row col = Some [] /\
       lv_table_get_cell_align t' row col = Some LV_LABEL_ALIGN_LEFT /\
       lv_table_get_cell_merge_right t' row col = Some false) /\
  (forall sign,
     lv_table_signal max_ancestor_num LV_RES_INV t sign buf
       = Some (LV_RES_INV, t, buf)).
Proof.
  intros Hok. split; [|reflexivity].
  destruct (table_ok_spec _ _ Hok) as (HR & HC & HW & H16 & Hst).
  destruct (cell_data (ext_attr t)) as [cells|] eqn:Hcd.
  - destruct (store_ok_cells _ _ Hst Hcd) as (Hpos & Hlen & _).
    pose proof (cleanup_cells_spec (ext_attr t) (length cells)
                  ltac:(lia) ltac:(lia)
                  (Z.to_nat (col_cnt (ext_attr t) * row_cnt (ext_attr t)))
                  0%nat cells eq_refl ltac:(lia) ltac:(lia)) as Hrun.
    rewrite (with_cell_data_id _ _ Hcd) in Hrun.
    change (Z.of_nat 0) with 0 in Hrun.
    rewrite Nat.sub_0_r, take_0 in Hrun. simpl app in Hrun.
    eexists. split; [unfold lv_table_signal; rewrite Hrun; reflexivity|].
    simpl. split.
    { unfold table_ok in *. simpl.
      rewrite !andb_true_iff in Hok |- *. destruct Hok as [Hrest _].
      split; [exact Hrest|]. unfold store_ok. simpl.
      rewrite length_replicate, !andb_true_iff, Z.ltb_lt, Z.eqb_eq.
      split; [lia|]. apply List.forallb_forall.
      intros p Hp%list_elem_of_In. by apply elem_of_replicate in Hp as [-> _]. }
    unfold lv_table_get_row_cnt, lv_table_get_col_cnt. simpl.
    split; [reflexivity|]. split; [reflexivity|]. split; [reflexivity|].
    split; [reflexivity|].
    intros row col Hrow Hcol.
    pose proof (cell_index_range _ _ _ _ Hrow Hcol) as Hi.
    assert (read_slot
              (with_cell_data (ext_attr t) (Some (replicate (length cells) None)))
              (row * col_cnt (ext_attr t) + col) = Some None) as Hslot.
    { unfold read_slot, idx. simpl.
      destruct (Z.ltb_spec (row * col_cnt (ext_attr t) + col) 0); [lia|].
      apply lookup_replicate_2. lia. }
    split; [exact Hslot|].
    apply cell_getters_empty; [by apply valid_cell_guard | exact Hslot].
  - unfold store_ok in Hst. rewrite Hcd in Hst. apply Z.eqb_eq in Hst.
    exists t. split.
    { unfold lv_table_signal.
      replace (col_cnt (ext_attr t) * row_cnt (ext_attr t)) with 0 by lia.
      simpl. replace (col_cnt (ext_attr t) * row_cnt (ext_attr t)) with 0 by lia.
      simpl. by rewrite with_ext_id. }
    split; [exact Hok|]. repeat split; nia.
Qed.

Lemma cleanup_frees_all_witness :
  table_ok env0 table1 = true /\
  exists t',
    lv_table_signal 8 LV_RES_OK table1 LV_SIGNAL_CLEANUP [] = Some (LV_RES_OK, t', []) /\
    cell_data (ext_attr t') = Some [None; None; None; None; None; None] /\
    lv_table_get_cell_value t' 0 0 = Some [].
Proof.
  split; [reflexivity|].
  destruct (cleanup_frees_all env0 8 table1 [] eq_refl) as [(t' & Hrun & _ & _ & _ & _ & _ & Hcells) _].
  exists t'. split; [exact Hrun|]. split.
  - vm_compute in Hrun. by injection Hrun as <-.
  - apply (Hcells 0 0); simpl; lia.
Defined.

(** ** The type query *)

Lemma find_type_slot_spec max_ancestor_num (buf : lv_obj_type_t) :
  Z.of_nat (length buf) = max_ancestor_num -> max_ancestor_num <= 256 ->
  forall fuel i,
    0 <= i -> i <= max_ancestor_num - 1 ->
    (Z.to_nat (max_ancestor_num - 1 - i) <= fuel)%nat ->
    exists j,
      find_type_slot fuel max_ancestor_num buf i = Some j /\
      i <= j <= max_ancestor_num - 1 /\
      (forall k, i <= k < j -> exists name, idx buf k = Some (Some name)) /\
      (j < max_ancestor_num - 1 -> idx buf j = Some None).
Proof.
  intros Hlen Hmax. induction fuel as [|n IH]; intros i Hi0 Hi Hfuel; simpl.
  - destruct (Z.ltb_spec i (max_ancestor_num - 1)); [lia|].
    exists i. split; [reflexivity|]. split; [lia|]. split; intros; lia.
  - destruct (Z.ltb_spec i (max_ancestor_num - 1)) as [Hlt|Hge].
    2:{ exists i. split; [reflexivity|]. split; [lia|]. split; intros; lia. }
    destruct (idx_is_Some buf i) as [p Hp]; [lia|]. rewrite Hp. simpl.
    destruct p as [name|].
    + unfold wrap8. rewrite Z.mod_small by lia.
      destruct (IH (i + 1)) as (j & Hj & Hrange & Hset & Hnull); [lia..|].
      exists j. split; [exact Hj|]. split; [lia|]. split; [|exact Hnull].
      intros k Hk. destruct (Z.eq_dec k i) as [->|]; [eauto|]. apply Hset. lia.
    + exists i. split; [reflexivity|]. split; [lia|]. split; [intros; lia|].
      intros _. exact Hp.
Qed.

(** X13. The type query appends the table's type name: when the ancestor's
    signal function returned [LV_RES_OK] and the array has
    [LV_MAX_ANCESTOR_NUM] entries, at most 256, the signal writes "lv_table"
    into the first NULL entry among the first [LV_MAX_ANCESTOR_NUM - 1], and
    into the last entry when none of them is NULL; the entries before it are
    the names the ancestors set, no other entry changes and the table is
    untouched. *)
Theorem get_type_appends max_ancestor_num t (buf : lv_obj_type_t) :
  1 <= max_ancestor_num <= 256 ->
  Z.of_nat (length buf) = max_ancestor_num ->
  exists j,
    0 <= j <= max_ancestor_num - 1 /\
    lv_table_signal max_ancestor_num LV_RES_OK t LV_SIGNAL_GET_TYPE buf
      = Some (LV_RES_OK, t, <[Z.to_nat j := Some lv_table_type_name]> buf) /\
    idx (<[Z.to_nat j := Some lv_table_type_name]> buf) j
      = Some (Some lv_table_type_name) /\
    (forall k, k <> j ->
               idx (<[Z.to_nat j := Some lv_table_type_name]> buf) k = idx buf k) /\
    (forall k, 0 <= k < j -> exists name, idx buf k = Some (Some name)) /\
    (j < max_ancestor_num - 1 -> idx buf j = Some None).
Proof.
  intros Hmax Hlen.
  destruct (find_type_slot_spec max_ancestor_num buf Hlen ltac:(lia)
              (Z.to_nat max_ancestor_num) 0)
    as (j & Hj & Hrange & Hset & Hnull); [lia..|].
  exists j. split; [lia|].
  destruct (idx_is_Some buf j) as [p Hp]; [lia|].
  split; [unfold lv_table_signal; rewrite Hj; simpl; rewrite Hp; reflexivity|].
  split; [apply idx_insert_eq; lia|].
  split; [intros k Hk; apply idx_insert_ne; lia|].
  split; [exact Hset | exact Hnull].
Qed.

Lemma get_type_appends_witness :
  1 <= 8 <= 256 /\ Z.of_nat (length type_buf1) = 8 /\
  lv_table_signal 8 LV_RES_OK table1 LV_SIGNAL_GET_TYPE type_buf1
    = Some (LV_RES_OK, table1, <[1%nat := Some lv_table_type_name]> type_buf1).
Proof.
  split; [lia|]. split; [reflexivity|].
  destruct (get_type_appends 8 table1 type_buf1) as (j & Hj & Hrun & _ & _ & Hset & Hnull);
    [lia | reflexivity |].
  assert (j = 1) as ->.
  { destruct (Z.eq_dec j 0) as [->|].
    - specialize (Hnull ltac:(lia)). discriminate.
    - destruct (Z_lt_le_dec j 2) as [|Hge]; [lia|].
      destruct (Hset 1 ltac:(lia)) as [name Hname]. discriminate. }
  exact Hrun.
Defined.

(** ** The geometry of the calls drawn *)

Lemma sum_add_app (l1 l2 : list Z) :
  foldr Z.add 0 (l1 ++ l2) = foldr Z.add 0 l1 + foldr Z.add 0 l2.
Proof. induction l1 as [|x l1 IH]; simpl; lia. Qed.

Lemma col_w_sum_app e a n1 n2 :
  0 <= n1 -> 0 <= n2 ->
  col_w_sum e a (n1 + n2) = col_w_sum e a n1 + col_w_sum e (a + n1) n2.
Proof.
  intros H1 H2. unfold col_w_sum.
  rewrite seqZ_app by lia. rewrite fmap_app. apply sum_add_app.
Qed.

Lemma align_txt_flags_spec format flags :
  (format_align format = LV_LABEL_ALIGN_LEFT ->
   align_txt_flags format flags = LV_TXT_FLAG_NONE) /\
  (format_align format = LV_LABEL_ALIGN_RIGHT ->
   align_txt_flags format flags = LV_TXT_FLAG_RIGHT) /\
  (format_align format = LV_LABEL_ALIGN_CENTER ->
   align_txt_flags format flags = LV_TXT_FLAG_CENTER).
Proof.
  unfold align_txt_flags. repeat split; intros ->; reflexivity.
Qed.

Section row_geometry.
Context (e : lv_table_ext_t) (cells : list cell_ptr).
Context (row_start row : Z) (ya yb : lv_coord_t).
Hypothesis Hcd : cell_data e = Some cells.
Hypothesis Hslots : Forall (fun p => slot_ok p = true) cells.
Hypothesis Hcolw : col_cnt e <= Z.of_nat (length (col_w e)).
Hypothesis Hrow0 : 0 <= row_start.
Hypothesis Hrow : row_start + col_cnt e <= Z.of_nat (length cells).
Hypothesis H16 : row_start + col_cnt e < 65536.

(** The column loop of the renderer on a well-formed row: the rectangles
    abut from the starting edge over the widths of the columns that are
    left, they span the row from [ya] to [yb], every label is its rectangle
    less the cell padding, and every label shows the slot of its cell. *)
Lemma design_cols_geometry fuel :
  forall col x flags,
    0 <= col <= col_cnt e ->
    (Z.to_nat (col_cnt e - col) <= fuel)%nat ->
    exists flags' calls,
      design_cols fuel e row col (row_start + col) x ya yb flags
        = Some (row_start + col_cnt e, flags', calls) /\
      rects_abut x calls (x + col_w_sum e col (col_cnt e - col)) /\
      rects_between ya yb calls /\
      (forall prev,
         calls <> [] ->
         labels_inset (body_padding_hor (cell_style e))
           (body_padding_ver (cell_style e)) prev calls) /\
      Forall (label_shows_slot e row_start) calls.
Proof.
  induction fuel as [|n IH]; intros col x flags Hcol Hfuel.
  - exists flags, []. rewrite design_cols_done by lia.
    replace (col_cnt e - col) with 0 by lia. rewrite col_w_sum_0.
    replace col with (col_cnt e) at 1 by lia.
    split; [reflexivity|]. split; [simpl; lia|]. split; [constructor|].
    split; [done | constructor].
  - destruct (Z.eq_dec col (col_cnt e)) as [Heq|Hne].
    { exists flags, []. rewrite design_cols_done by lia.
      replace (col_cnt e - col) with 0 by lia. rewrite col_w_sum_0.
      rewrite Heq at 1.
      split; [reflexivity|]. split; [simpl; lia|]. split; [constructor|].
      split; [done | constructor]. }
    destruct (read_slot_row e cells row_start Hcd Hslots Hrow0 Hrow col)
      as (p & Hp & Hok); [lia|].
    destruct (idx_is_Some (col_w e) col) as [c Hc]; [lia|].
    destruct (row_height_merge_spec e cells row_start Hcd Hslots Hcolw Hrow0
                Hrow H16 (col_fuel e) col ltac:(lia) 0 c)
      as (m & w & Hmerge & Hm0 & Hm1 & _ & _ & Hw);
      [lia | lia | unfold col_fuel; lia |].
    rewrite (design_cols_step e row_start row ya yb Hrow0 H16 n col x flags
               p c m w) by (assumption || lia).
    assert (col_w_sum e col (col_cnt e - col)
            = w + col_w_sum e (col + m + 1) (col_cnt e - (col + m + 1))) as Hsum.
    { replace (col_cnt e - col) with ((m + 1) + (col_cnt e - (col + m + 1)))
        by lia.
      rewrite col_w_sum_app by lia. rewrite (col_w_sum_cons e col m) by lia.
      rewrite Hc, Hw.
      replace (col + 0 + 1) with (col + 1) by lia.
      replace (m - 0) with m by lia.
      replace (col + (m + 1)) with (col + m + 1) by lia.
      change (default 0 (Some c)) with c. lia. }
    assert (exists flags1 label,
               design_label e row col x ya (x + w) yb p flags = Some (flags1, label) /\
               Forall (label_shows_slot e row_start) label /\
               match label with
               | [] => True
               | [DrawLabel _ _ ta _ _] =>
                   ta = {| x1 := x + body_padding_hor (cell_style e);
                           y1 := ya + body_padding_ver (cell_style e);
                           x2 := x + w - body_padding_hor (cell_style e);
                           y2 := yb - body_padding_ver (cell_style e) |}
               | _ => False
               end) as (flags1 & label & Hlabel & Hshows & Hshape).
    { unfold design_label. destruct p as [b|].
      - destruct (slot_ok_format b Hok) as (f & txt & Hf & Htxt).
        rewrite Hf, Htxt. simpl. eexists _, _. split; [reflexivity|].
        split; [|reflexivity]. constructor; [|constructor]. simpl.
        exists b, f. split; [exact Hp|]. split; [exact Hf|].
        split; [exact Htxt|]. apply align_txt_flags_spec.
      - eexists _, _. split; [reflexivity|]. split; [constructor | exact I]. }
    rewrite Hlabel. simpl.
    destruct (IH (col + m + 1) (x + w) flags1)
      as (flags' & calls & Hd & Habut & Hbetween & Hinset & Hall); [lia | lia |].
    rewrite Hd. simpl. eexists _, _. split; [reflexivity|].
    assert (forall prev,
              labels_inset (body_padding_hor (cell_style e))
                (body_padding_ver (cell_style e)) prev calls \/ calls = [])
      as Hinset'.
    { intros prev. destruct calls; [by right | left; by apply Hinset]. }
    destruct label as [|[| |r0 c0 ta txt fl] [|]]; try contradiction; simpl.
    + split; [split; [reflexivity | by rewrite Hsum, Z.add_assoc]|].
      split; [constructor; [split; reflexivity | exact Hbetween]|].
      split; [|constructor; [exact I | exact Hall]].
      intros prev _. destruct (Hinset' (Some {| x1 := x; y1 := ya; x2 := x + w; y2 := yb |}))
        as [H | ->]; [exact H | exact I].
    + split; [split; [reflexivity | by rewrite Hsum, Z.add_assoc]|].
      split; [constructor; [split; reflexivity |
                            constructor; [exact I | exact Hbetween]]|].
      apply Forall_cons in Hshows as [Hshow _].
      split; [|constructor; [exact I | constructor; [exact Hshow | exact Hall]]].
      intros prev _. split; [exact Hshape|].
      destruct (Hinset' (Some {| x1 := x; y1 := ya; x2 := x + w; y2 := yb |}))
        as [H | ->]; [exact H | exact I].
Qed.
End row_geometry.

Lemma rows_height_0 env t k : rows_height env t k 0 = 0.
Proof. reflexivity. Qed.

Lemma rows_height_cons env t k n :
  0 <= n ->
  rows_height env t k (n + 1)
  = default 0 (get_row_height env t k) + rows_height env t (k + 1) n.
Proof.
  intros Hn. unfold rows_height.
  replace (n + 1) with (Z.succ n) by lia. rewrite seqZ_cons by lia.
  simpl. replace (Z.pred (Z.succ n)) with n by lia.
  replace (Z.succ k) with (k + 1) by lia. reflexivity.
Qed.


(** The calls drawn for one row of a well-formed table. *)
Lemma design_row_geometry env t r :
  table_ok env t = true ->
  0 <= r < row_cnt (ext_attr t) ->
  forall x ya yb flags cell' flags' calls,
    design_cols (col_fuel (ext_attr t)) (ext_attr t) r 0
      (r * col_cnt (ext_attr t)) x ya yb flags = Some (cell', flags', calls) ->
    rects_abut x calls (x + col_w_sum (ext_attr t) 0 (col_cnt (ext_attr t))) /\
    rects_between ya yb calls /\
    labels_inset (body_padding_hor (cell_style (ext_attr t)))
      (body_padding_ver (cell_style (ext_attr t))) None calls /\
    Forall (label_shows_slot (ext_attr t) (r * col_cnt (ext_attr t))) calls.
Proof.
  intros Hok Hr x ya yb flags cell' flags' calls Hd.
  destruct (table_ok_spec _ _ Hok) as (HR & HC & HW & H16 & Hst).
  cbv zeta in HR, HC, HW, H16, Hst.
  destruct (cell_data (ext_attr t)) as [cells|] eqn:Hcd.
  - destruct (table_ok_row _ _ _ _ Hok Hcd Hr) as (Hall & Hw & H0 & Hlen & Hlt).
    cbv zeta in Hall, Hw, H0, Hlen, Hlt.
    destruct (design_cols_geometry (ext_attr t) cells (r * col_cnt (ext_attr t))
                r ya yb Hcd Hall Hw H0 Hlen Hlt (col_fuel (ext_attr t)) 0 x flags)
      as (fl1 & calls1 & Hd1 & Habut & Hbetween & Hinset & Hshow);
      [lia | unfold col_fuel; lia |].
    rewrite Z.add_0_r in Hd1. rewrite Hd1 in Hd. injection Hd as _ _ <-.
    rewrite Z.sub_0_r in Habut.
    split; [exact Habut|]. split; [exact Hbetween|]. split; [|exact Hshow].
    destruct calls1; [exact I | by apply Hinset].
  - unfold store_ok in Hst. rewrite Hcd in Hst. apply Z.eqb_eq in Hst.
    assert (col_cnt (ext_attr t) = 0) as HC0 by nia.
    rewrite design_cols_done in Hd by lia. injection Hd as _ _ <-.
    rewrite HC0, col_w_sum_0. split; [simpl; lia|].
    split; [constructor|]. split; [exact I | constructor].
Qed.

(** The row loop of the renderer on a well-formed table: every row is drawn
    by the column loop, from the sum of the heights of the rows above it to
    that plus its own height. *)
Lemma design_rows_tops env t :
  table_ok env t = true ->
  forall (n : nat) k y flags,
    0 <= k -> k + Z.of_nat n <= row_cnt (ext_attr t) ->
    exists calls,
      design_rows env t (seqZ k (Z.of_nat n)) (k * col_cnt (ext_attr t)) y flags
        = Some calls /\
      Forall (fun c => k <= call_row c < k + Z.of_nat n) calls /\
      forall r, k <= r < k + Z.of_nat n ->
        exists h fl cell' fl',
          get_row_height env t r = Some h /\
          design_cols (col_fuel (ext_attr t)) (ext_attr t) r 0
            (r * col_cnt (ext_attr t))
            (coords_x1 t + body_padding_hor (obj_style t))
            (y + rows_height env t k (r - k))
            (y + rows_height env t k (r - k) + h) fl
          = Some (cell', fl', calls_of_row r calls) /\
          Forall (fun c => 0 <= call_col c < col_cnt (ext_attr t))
            (calls_of_row r calls).
Proof.
  intros Hok. induction n as [|n IH]; intros k y flags Hk Hn.
  - exists []. split; [reflexivity|]. split; [constructor | intros; lia].
  - rewrite Nat2Z.inj_succ in *. rewrite seqZ_cons by lia.
    replace (Z.pred (Z.succ (Z.of_nat n))) with (Z.of_nat n) by lia.
    simpl.
    destruct (design_row_ok env t k Hok ltac:(lia)
                (coords_x1 t + body_padding_hor (obj_style t)) y
                (y + default 0 (get_row_height env t k)) flags)
      as (h & log & flags' & calls & Hh & Hd & _ & Htags).
    assert (get_row_height env t k = Some h) as Hgh
      by (unfold get_row_height; by rewrite Hh).
    rewrite Hgh in *. simpl in Hd. simpl. rewrite Hd. simpl.
    destruct (IH (Z.succ k) (y + h) flags') as (more & Hmore & Hrows & Hper);
      [lia | lia |].
    replace ((k + 1) * col_cnt (ext_attr t))
      with (Z.succ k * col_cnt (ext_attr t)) by (f_equal; lia).
    rewrite Hmore. simpl. exists (calls ++ more). split; [reflexivity|].
    split.
    + apply Forall_app. split.
      * eapply Forall_impl; [exact Htags|]. simpl. intros c [? _]. lia.
      * eapply Forall_impl; [exact Hrows|]. simpl. intros c ?. lia.
    + intros r Hr. rewrite calls_of_row_app.
      destruct (Z.eq_dec r k) as [->|Hne].
      * rewrite calls_of_row_all
          by (eapply Forall_impl; [exact Htags|]; simpl; tauto).
        rewrite calls_of_row_none
          by (eapply Forall_impl; [exact Hrows|]; simpl; intros; lia).
        rewrite app_nil_r, Z.sub_diag, rows_height_0, Z.add_0_r.
        exists h, flags, (Z.succ k * col_cnt (ext_attr t)), flags'.
        split; [exact Hgh|]. split.
        -- rewrite Hd. repeat f_equal; lia.
        -- eapply Forall_impl; [exact Htags|]. simpl. tauto.
      * rewrite (calls_of_row_none r calls)
          by (eapply Forall_impl; [exact Htags|]; simpl; intros c [? _]; lia).
        simpl. destruct (Hper r) as (h' & fl & cell' & fl' & Hh' & Hd' & Hcols);
          [lia|].
        exists h', fl, cell', fl'. split; [exact Hh'|]. split; [|exact Hcols].
        replace (r - k) with ((r - k - 1) + 1) by lia.
        rewrite rows_height_cons by lia. rewrite Hgh. simpl.
        replace (k + 1) with (Z.succ k) by lia.
        replace (r - Z.succ k) with (r - k - 1) in Hd' by lia.
        rewrite <- Hd'. f_equal; lia.
Qed.



(** X15. What a label shows: on a well-formed table every label the
    main-draw pass draws belongs to a valid cell, its text is what
    [lv_table_get_cell_value] returns for that cell, and its text flag
    follows what [lv_table_get_cell_align] returns: none for left, right for
    right and center for center. *)
Theorem labels_show_cells env t txt_flags :
  table_ok env t = true ->
  exists calls,
    lv_table_design env t LV_DESIGN_DRAW_MAIN txt_flags
      = Some (true, AncestorDesign :: calls) /\
    forall row col area txt flags,
      DrawLabel row col area txt flags ∈ calls ->
      0 <= row < row_cnt (ext_attr t) /\ 0 <= col < col_cnt (ext_attr t) /\
      (exists b, read_slot (ext_attr t) (row * col_cnt (ext_attr t) + col)
                 = Some (Some b)) /\
      lv_table_get_cell_value t row col = Some txt /\
      exists align,
        lv_table_get_cell_align t row col = Some align /\
        (align = LV_LABEL_ALIGN_LEFT -> flags = LV_TXT_FLAG_NONE) /\
        (align = LV_LABEL_ALIGN_RIGHT -> flags = LV_TXT_FLAG_RIGHT) /\
        (align = LV_LABEL_ALIGN_CENTER -> flags = LV_TXT_FLAG_CENTER).
Proof.
  intros Hok.
  destruct (table_ok_spec _ _ Hok) as (HR & _). cbv zeta in HR.
  destruct (design_rows_tops env t Hok (Z.to_nat (row_cnt (ext_attr t))) 0
              (coords_y1 t + body_padding_ver (obj_style t)) txt_flags)
    as (calls & Hrun & Hrange & Hper); [lia | lia |].
  rewrite Z2Nat.id in Hrun, Hrange, Hper by lia.
  change (0 * col_cnt (ext_attr t)) with 0 in Hrun.
  exists calls. split.
  { unfold lv_table_design. cbv zeta. rewrite Hrun. reflexivity. }
  intros row col area txt flags Hin.
  pose proof (proj1 (Forall_forall _ _) Hrange _ Hin) as Hrow. simpl in Hrow.
  assert (0 <= row < row_cnt (ext_attr t)) as Hrow' by lia.
  destruct (Hper row) as (h & fl & cell' & fl' & _ & Hd & Hcols); [lia|].
  rewrite Z.sub_0_r in Hd.
  destruct (design_row_geometry env t row Hok Hrow' _ _ _ _ _ _ _ Hd)
    as (_ & _ & _ & Hshow).
  assert (DrawLabel row col area txt flags ∈ calls_of_row row calls) as Hin'.
  { apply list_elem_of_In. apply List.filter_In.
    split; [by apply list_elem_of_In | simpl; apply Z.eqb_refl]. }
  pose proof (proj1 (Forall_forall _ _) Hcols _ Hin') as Hcol. simpl in Hcol.
  pose proof (proj1 (Forall_forall _ _) Hshow _ Hin') as Hlabel.
  simpl in Hlabel.
  destruct Hlabel as (b & f & Hslot & Hf & Htxt & Hl & Hr & Hc).
  split; [exact Hrow'|]. split; [exact Hcol|]. split; [by exists b|].
  pose proof (valid_cell_guard (ext_attr t) row col Hrow' Hcol) as Hg.
  unfold lv_table_get_cell_value, lv_table_get_cell_align. cbv zeta.
  rewrite Hg, Hslot. simpl. split; [exact Htxt|].
  rewrite Hf. simpl. exists (format_align f). auto.
Qed.

Lemma labels_show_cells_witness :
  exists calls,
    lv_table_design env0 table1 LV_DESIGN_DRAW_MAIN 0
      = Some (true, AncestorDesign :: calls) /\
    forall row col area txt flags,
      DrawLabel row col area txt flags ∈ calls ->
      0 <= row < 2 /\ 0 <= col < 3 /\
      (exists b, read_slot (ext_attr table1) (row * 3 + col) = Some (Some b)) /\
      lv_table_get_cell_value table1 row col = Some txt /\
      exists align,
        lv_table_get_cell_align table1 row col = Some align /\
        (align = LV_LABEL_ALIGN_LEFT -> flags = LV_TXT_FLAG_NONE) /\
        (align = LV_LABEL_ALIGN_RIGHT -> flags = LV_TXT_FLAG_RIGHT) /\
        (align = LV_LABEL_ALIGN_CENTER -> flags = LV_TXT_FLAG_CENTER).
Proof.
  exact (labels_show_cells env0 table1 0 ltac:(reflexivity)).
Defined.
